(** * SonarLint for VS Code: connected-mode bindings and extension helpers

    A shallow embedding of [src/connected/binding.ts] (class [BindingService])
    and of two helpers of [src/extension.ts] ([cleanRemoteName] and
    [performIsIgnoredCheck]), together with the properties stated about them.

    The editor is the host of this code.  Its configuration store, its
    workspace, its message boxes and quick-picks are represented by explicit
    state ([Host]) that the embedded functions read and return. *)

From Stdlib Require Import ZArith Ascii.
From stdpp Require Import gmap strings list fin_maps sorting.

(** ** JavaScript values used by the code *)

Module Js.

(** Truthiness of a value of type [string | undefined]: [undefined] and the
    empty string are falsy. *)
Definition truthy (v : option string) : bool :=
  match v with
  | Some s => if decide (s = "") then false else true
  | None => false
  end.

(** [v || d] where [d] is a string. *)
Definition or_else (v : option string) (d : string) : string :=
  match v with
  | Some s => if decide (s = "") then d else s
  | None => d
  end.

(** [s.indexOf(search)]: position of the first occurrence, or [-1]. *)
Definition indexOf (s search : string) : Z :=
  match String.index 0 search s with
  | Some n => Z.of_nat n
  | None => (-1)%Z
  end.

(** Outcome of a call that may throw, or of a promise that may reject. *)
Inductive result (A : Type) : Type :=
| Ok (a : A)
| Throw (error : string).
Arguments Ok {A} a.
Arguments Throw {A} error.

Definition TypeError : string := "TypeError".

End Js.

(** An insertion-ordered [Map<string, V>]: [set] on a key already present
    replaces the value in place, on a fresh key it appends the entry. *)
Module JsMap.

Definition t (V : Type) : Type := list (string * V).

Definition empty {V} : t V := [].

Fixpoint get {V} (k : string) (m : t V) : option V :=
  match m with
  | [] => None
  | (k', v) :: m' => if decide (k = k') then Some v else get k m'
  end.

Definition has {V} (k : string) (m : t V) : bool :=
  match get k m with Some _ => true | None => false end.

Fixpoint set {V} (k : string) (v : V) (m : t V) : t V :=
  match m with
  | [] => [(k, v)]
  | (k', v') :: m' =>
      if decide (k = k') then (k', v) :: m' else (k', v') :: set k v m'
  end.

Definition values {V} (m : t V) : list V := map snd m.

Definition size {V} (m : t V) : nat := length m.

End JsMap.

(** ** The editor's data *)

Record Uri := { toString : string; fsPath : string }.

Record WorkspaceFolder := { uri : Uri; name : string; index : nat }.

(** [interface ProjectBinding].  The value read from the configuration is an
    object any of whose properties may be missing. *)
Record ProjectBinding := {
  projectKey : option string;
  serverId : option string;
  connectionId : option string
}.

Record BoundFolder := { folder : WorkspaceFolder; binding : ProjectBinding }.

(** What the code reads of [Connection] and [WorkspaceFolderItem], two classes
    of [connected/connections.ts]. *)
Record Connection := { id : option string }.

Record WorkspaceFolderItem := { item_name : string; item_uri : Uri }.

Module ConfigurationTarget.
Inductive t := Global | Workspace | WorkspaceFolder.
End ConfigurationTarget.

(** The values of the setting [sonarlint.connectedMode.project], one per level
    of the editor's configuration.  The workspace-folder level is keyed by the
    string form of the folder's URI. *)
Record Settings := {
  defaultValue : ProjectBinding;
  globalValue : option ProjectBinding;
  workspaceValue : option ProjectBinding;
  workspaceFolderValue : gmap string ProjectBinding
}.

(** Object values of a more specific level are merged over those of a less
    specific one, property by property. *)
Definition override {A} (over base : option A) : option A :=
  match over with Some x => Some x | None => base end.

Definition mergeObjects (base : ProjectBinding) (over : option ProjectBinding)
  : ProjectBinding :=
  match over with
  | Some o =>
      {| projectKey := override (projectKey o) (projectKey base);
         serverId := override (serverId o) (serverId base);
         connectionId := override (connectionId o) (connectionId base) |}
  | None => base
  end.

(** The value of the levels above the workspace folders. *)
Definition inheritedValue (s : Settings) : ProjectBinding :=
  mergeObjects (mergeObjects (defaultValue s) (globalValue s)) (workspaceValue s).

(** [getConfiguration('sonarlint', resource).get('connectedMode.project')]:
    the effective value for a resource. *)
Definition config_get (s : Settings) (resource : Uri) : ProjectBinding :=
  mergeObjects (inheritedValue s) (workspaceFolderValue s !! toString resource).

(** [getConfiguration('sonarlint', resource).update('connectedMode.project',
    value, target)].  [undefined] as value removes the setting at that level.
    Without a target the editor writes a resource-scoped setting, which this
    one is, at the workspace-folder level. *)
Definition config_update (resource : Uri) (value : option ProjectBinding)
    (target : option ConfigurationTarget.t) (s : Settings) : Settings :=
  match target with
  | Some ConfigurationTarget.Global =>
      {| defaultValue := defaultValue s; globalValue := value;
         workspaceValue := workspaceValue s;
         workspaceFolderValue := workspaceFolderValue s |}
  | Some ConfigurationTarget.Workspace =>
      {| defaultValue := defaultValue s; globalValue := globalValue s;
         workspaceValue := value;
         workspaceFolderValue := workspaceFolderValue s |}
  | Some ConfigurationTarget.WorkspaceFolder | None =>
      {| defaultValue := defaultValue s; globalValue := globalValue s;
         workspaceValue := workspaceValue s;
         workspaceFolderValue :=
           match value with
           | Some v => <[toString resource := v]> (workspaceFolderValue s)
           | None => delete (toString resource) (workspaceFolderValue s)
           end |}
  end.

(** What the windows of the editor have shown, oldest first. *)
Inductive UiEvent :=
| ShowInformationMessage (message : string)
| ShowWarningMessage (message : string) (items : list string)
| ShowErrorMessage (message : string)
| ShowQuickPick (items : list string) (title placeHolder : string)
| ExecuteCommand (command : string)
| OutputLine (line : string).

(** The state of the editor that the code reads and writes.
    [workspaceFolders] is [undefined] when no folder is open;
    [quickPickAnswer] is what the user selects in a quick-pick over the given
    items ([undefined] when the pick is dismissed). *)
Record Host := {
  workspaceFolders : option (list WorkspaceFolder);
  settings : Settings;
  shown : list UiEvent;
  quickPickAnswer : list string -> option string
}.

Definition with_settings (s : Settings) (h : Host) : Host :=
  {| workspaceFolders := workspaceFolders h; settings := s;
     shown := shown h; quickPickAnswer := quickPickAnswer h |}.

Definition show (e : UiEvent) (h : Host) : Host :=
  {| workspaceFolders := workspaceFolders h; settings := settings h;
     shown := shown h ++ [e]; quickPickAnswer := quickPickAnswer h |}.

(** The scope given to [getConfiguration]: a URI or a workspace folder. *)
Inductive ConfigurationScope :=
| ScopeUri (u : Uri)
| ScopeFolder (f : WorkspaceFolder).

Definition scope_resource (scope : ConfigurationScope) : Uri :=
  match scope with
  | ScopeUri u => u
  | ScopeFolder f => uri f
  end.

Definition getConfiguration_get (scope : ConfigurationScope) (h : Host)
  : ProjectBinding :=
  config_get (settings h) (scope_resource scope).

Definition getConfiguration_update (scope : ConfigurationScope)
    (value : option ProjectBinding) (target : option ConfigurationTarget.t)
    (h : Host) : Host :=
  with_settings (config_update (scope_resource scope) value target (settings h)) h.

(** ** [connected/binding.ts] *)

Definition DEFAULT_CONNECTION_ID : string := "<default>".
Definition BIND_MANUALLY_ACTION : string := "Bind Manually".
Definition DO_NOT_ASK_ABOUT_AUTO_BINDING_FOR_FOLDER_FLAG : string :=
  "doNotAskAboutAutoBindingForFolder".

Inductive ServerType := SonarQube | SonarCloud.

Definition ServerType_string (t : ServerType) : string :=
  match t with SonarQube => "SonarQube" | SonarCloud => "SonarCloud" end.

Record QuickInputButton := { iconPath : string; tooltip : string }.

Record QuickPickItem := {
  label : string;
  description : option string;
  buttons : list QuickInputButton
}.

(** [languageClient.getRemoteProjectsForConnection]: the request fails, or
    answers the remote projects as entries (project key, project name), in the
    order in which the answer enumerates them. *)
Record LanguageClient := {
  getRemoteProjectsForConnection : string -> Js.result (list (string * string))
}.

(** The fields of a [BindingService] that the embedded methods use.
    [workspaceState] is the memento; only lists of strings are stored under
    the key that is read here. *)
Record BindingService := {
  languageClient : LanguageClient;
  workspaceState : gmap string (list string)
}.

Definition bindManuallyAction (workspaceFolder : WorkspaceFolder) (h : Host)
  : Host :=
  let existingSettings := getConfiguration_get (ScopeFolder workspaceFolder) h in
  let h1 :=
    match projectKey existingSettings with
    | None =>
        getConfiguration_update (ScopeFolder workspaceFolder)
          (Some {| projectKey := Some ""; serverId := None;
                   connectionId := Some "" |})
          None h
    | Some _ => h
    end in
  show (ExecuteCommand "workbench.action.openFolderSettingsFile") h1.

Definition deleteBinding (workspaceFolderItem : WorkspaceFolderItem + BoundFolder)
    (h : Host) : Host :=
  let folder :=
    match workspaceFolderItem with
    | inl item => ScopeUri (item_uri item)
    | inr bound => ScopeFolder (folder bound)
    end in
  getConfiguration_update folder None
    (Some ConfigurationTarget.WorkspaceFolder) h.

(** One iteration of the loop of [getAllBindings]. *)
Definition getAllBindings_body (h : Host)
    (bindingsPerConnectionId : JsMap.t (JsMap.t (list BoundFolder)))
    (folder : WorkspaceFolder) : JsMap.t (JsMap.t (list BoundFolder)) :=
  let binding := getConfiguration_get (ScopeUri (uri folder)) h in
  if Js.truthy (projectKey binding) then
    let projectKey := default "" (projectKey binding) in
    let connectionId :=
      Js.or_else (connectionId binding)
        (Js.or_else (serverId binding) DEFAULT_CONNECTION_ID) in
    let bindingsPerConnectionId :=
      if JsMap.has connectionId bindingsPerConnectionId
      then bindingsPerConnectionId
      else JsMap.set connectionId JsMap.empty bindingsPerConnectionId in
    let connectionBindingsPerProjectKey :=
      default JsMap.empty (JsMap.get connectionId bindingsPerConnectionId) in
    let connectionBindingsPerProjectKey :=
      if JsMap.has projectKey connectionBindingsPerProjectKey
      then connectionBindingsPerProjectKey
      else JsMap.set projectKey [] connectionBindingsPerProjectKey in
    let folders :=
      default [] (JsMap.get projectKey connectionBindingsPerProjectKey) in
    (* push mutates the array held by the inner map held by the outer map *)
    JsMap.set connectionId
      (JsMap.set projectKey
         (folders ++ [ {| folder := folder; binding := binding |} ])
         connectionBindingsPerProjectKey)
      bindingsPerConnectionId
  else bindingsPerConnectionId.

Definition getAllBindings (h : Host) : JsMap.t (JsMap.t (list BoundFolder)) :=
  fold_left (getAllBindings_body h) (default [] (workspaceFolders h))
    JsMap.empty.

(** The deletions started by [Promise.all] touch the folders one after the
    other; the function returns once all of them are done. *)
Definition deleteBindingsForConnection (connection : Connection) (h : Host)
  : Host :=
  let connectionId := Js.or_else (id connection) DEFAULT_CONNECTION_ID in
  let allBindings := getAllBindings h in
  match JsMap.get connectionId allBindings with
  | Some bindingsForConnection =>
      fold_left
        (fun h folders => fold_left (fun h f => deleteBinding (inr f) h) folders h)
        (JsMap.values bindingsForConnection) h
  | None => h
  end.

Definition newline : string := String "010"%char "".

Definition saveBinding (projectKey : string) (connectionId : option string)
    (workspaceFolder : option WorkspaceFolder) (h : Host) : Js.result Host :=
  match workspaceFolder with
  | None => Js.Throw Js.TypeError (* [workspaceFolder.name] of [undefined] *)
  | Some workspaceFolder =>
      let h1 :=
        show (ShowInformationMessage
                ("Workspace folder '" +:+ name workspaceFolder +:+ "/'"
                 +:+ newline +:+ "                      has been bound with project '"
                 +:+ projectKey +:+ "'")) h in
      Js.Ok (getConfiguration_update (ScopeFolder workspaceFolder)
               (Some {| projectKey := Some projectKey; serverId := None;
                        connectionId := connectionId |})
               None h1)
  end.

Definition isBound (workspaceFolder : WorkspaceFolder) (h : Host) : bool :=
  let binding := getConfiguration_get (ScopeUri (uri workspaceFolder)) h in
  Js.truthy (projectKey binding).

Definition shouldBeAutoBound (this : BindingService)
    (workspaceFolder : WorkspaceFolder) (h : Host) : bool :=
  let foldersToBeIgnored :=
    default [] (workspaceState this !! DO_NOT_ASK_ABOUT_AUTO_BINDING_FOR_FOLDER_FLAG) in
  negb (isBound workspaceFolder h)
  && negb (bool_decide (toString (uri workspaceFolder) ∈ foldersToBeIgnored)).

(** Arrays of quick-pick items live in a store, and the code holds references
    to them: [filter] allocates a new array and leaves its receiver alone. *)
Module Arrays.

Abbreviation ref := nat.
Abbreviation store := (gmap nat (list QuickPickItem)).

Definition filter (P : QuickPickItem -> Prop) `{!∀ x, Decision (P x)}
    (a : ref) (σ : store) : option (ref * store) :=
  items ← σ !! a;
  let r := fresh (dom σ) in
  Some (r, <[r := base.filter P items]> σ).

End Arrays.

(** The [forEach] of [deduplicateQuickPickItems] over the elements of
    [suggestedProjects]; its callback assigns the variable [remoteProjects]. *)
Fixpoint deduplicate_forEach (elements : list QuickPickItem)
    (remoteProjects : Arrays.ref) (σ : Arrays.store)
  : option (Arrays.ref * Arrays.store) :=
  match elements with
  | [] => Some (remoteProjects, σ)
  | sp :: elements' =>
      '(remoteProjects', σ') ←
        Arrays.filter (λ rp, description rp ≠ description sp) remoteProjects σ;
      deduplicate_forEach elements' remoteProjects' σ'
  end.

Definition deduplicateQuickPickItems (suggestedProjects remoteProjects : Arrays.ref)
    (σ : Arrays.store) : option (Arrays.ref * Arrays.store) :=
  elements ← σ !! suggestedProjects;
  deduplicate_forEach elements remoteProjects σ.

Definition showFolderSelectionQuickPickOrReturnDefaultSelection
    (workspaceFolders : list WorkspaceFolder) (h : Host) : option string * Host :=
  if decide (length workspaceFolders = 1) then
    (name <$> workspaceFolders !! 0, h)
  else
    let items := map name workspaceFolders in
    (quickPickAnswer h items,
     show (ShowQuickPick items "Select Folder to Bind"
             "Select the workspace folder you want to create binding for") h).

Definition getRemoteProjects (this : BindingService) (connectionId : string)
  : Js.result (list (string * string)) :=
  getRemoteProjectsForConnection (languageClient this) connectionId.

(** [Array.prototype.sort] with a comparator, which is a stable sort:
    elements that the comparator does not tell apart keep their order.
    [le x y] says that the comparator gives a result that is not positive on
    [x] and [y], so that [x] may stay before [y].  Each element, from the last
    to the first, is inserted before the first element that it may stay
    before. *)
Section ArraySort.

Context {A : Type} (le : A -> A -> Prop) `{!RelDecision le}.

Fixpoint Array_insert (x : A) (l : list A) : list A :=
  match l with
  | [] => [x]
  | y :: l' => if decide (le x y) then x :: y :: l' else y :: Array_insert x l'
  end.

Fixpoint Array_sort (l : list A) : list A :=
  match l with
  | [] => []
  | x :: l' => Array_insert x (Array_sort l')
  end.

End ArraySort.

Section RemoteProjectsItems.

(** [a.localeCompare(b, 'en')] *)
Variable localeCompare : string -> string -> Z.

Definition compareLabels (i1 i2 : QuickPickItem) : Z :=
  localeCompare (label i1) (label i2).

(** [i1] may stay before [i2] under the comparator of the sort. *)
Definition label_le (i1 i2 : QuickPickItem) : Prop :=
  (compareLabels i1 i2 <= 0)%Z.

#[local] Instance label_le_dec : RelDecision label_le.
Proof. intros i1 i2. unfold label_le. apply _. Defined.

(** [items.sort(...)] with this comparator. *)
Definition sort (items : list QuickPickItem) : list QuickPickItem :=
  Array_sort label_le items.

Definition remoteProjectItem (serverType : ServerType) (k v : string)
  : QuickPickItem :=
  {| label := v;
     description := Some k;
     buttons := [ {| iconPath := "link-external";
                     tooltip := "View in " +:+ ServerType_string serverType |} ] |}.

(** When there is no remote project a warning offers to bind manually;
    [action] is the answer to that warning, which [bindManuallyAction]
    follows when it is the button. *)
Definition getRemoteProjectsItems (this : BindingService) (connectionId : string)
    (workspaceFolder : WorkspaceFolder) (serverType : ServerType)
    (action : option string) (h : Host)
  : list QuickPickItem * Host :=
  let getRemoteProjectsParam :=
    Js.or_else (Some connectionId) DEFAULT_CONNECTION_ID in
  let itemsList : list QuickPickItem := [] in
  let '(itemsList, h) :=
    match getRemoteProjects this getRemoteProjectsParam with
    | Js.Ok remoteProjects =>
        let h :=
          if decide (JsMap.size remoteProjects = 0)
          then
            let h :=
              show (ShowWarningMessage "No remote projects to display."
                      [BIND_MANUALLY_ACTION]) h in
            if decide (action = Some BIND_MANUALLY_ACTION)
            then bindManuallyAction workspaceFolder h
            else h
          else h in
        (fold_left
           (λ itemsList '(k, v),
              itemsList ++ [remoteProjectItem serverType k v])
           remoteProjects itemsList,
         h)
    | Js.Throw _ =>
        (itemsList,
         show (ShowErrorMessage
                 ("Request Failed: Could not get the list of remote projects."
                  +:+ " Please check the connection.")) h)
    end in
  (sort itemsList, h).

End RemoteProjectsItems.

(** ** [extension.ts] *)

Definition allowedRemoteNames : list string :=
  ["ssh-remote"; "dev-container"; "attached-container"; "wsl"; "codespaces"].

Definition cleanRemoteName (remoteName : option string) : string :=
  if negb (Js.truthy remoteName) then "none"
  else
    let remoteName := default "" remoteName in
    let ret := "other" in
    fold_left
      (λ ret res, if decide (Js.indexOf remoteName res = 0%Z) then res else ret)
      allowedRemoteNames ret.

(** What [performIsIgnoredCheck] uses of the git extension's API. *)
Record Repository := { rootUri : Uri }.

Record GitAPI := {
  git_path : string;
  getRepository : Uri -> Js.result (option Repository)
}.

Record GitExtension := { getAPI : nat -> Js.result GitAPI }.

(** An installed extension; [exports] is [undefined] until it is activated. *)
Record Extension := { exports : option GitExtension }.

(** What [performIsIgnoredCheck] uses of the editor.  [getExtension] answers
    [undefined] for an extension that is not installed or is disabled. *)
Record ScmHost := {
  Uri_parse : string -> Uri;
  getWorkspaceFolder : Uri -> option WorkspaceFolder;
  getExtension : string -> option Extension
}.

(** The output channel, when it has been created. *)
Definition logToSonarLintOutput (message : string)
    (sonarlintOutput : option (list string)) : option (list string) :=
  match sonarlintOutput with
  | Some lines => Some (lines ++ [message])
  | None => None
  end.

Definition dquote : string := String "034"%char "".

(** The body of the [try] block: its value or the exception it throws, and the
    output channel. *)
Definition performIsIgnoredCheck_try (gitExtension : GitExtension)
    (fileUri : string) (parsedFileUri : Uri)
    (scmCheck : string -> string -> Js.result bool)
    (sonarlintOutput : option (list string))
  : Js.result bool * option (list string) :=
  match getAPI gitExtension 1 with
  | Js.Throw e => (Js.Throw e, sonarlintOutput)
  | Js.Ok gitApi =>
      let gitPath := git_path gitApi in
      match getRepository gitApi parsedFileUri with
      | Js.Throw e => (Js.Throw e, sonarlintOutput)
      | Js.Ok (Some repo) =>
          let command :=
            dquote +:+ gitPath +:+ dquote +:+ " check-ignore " +:+ dquote
            +:+ fsPath parsedFileUri +:+ dquote in
          (scmCheck (fsPath (rootUri repo)) command, sonarlintOutput)
      | Js.Ok None =>
          (Js.Ok false,
           logToSonarLintOutput
             ("The '" +:+ fileUri +:+ "' file is not in a git repo, consider as not ignored")
             sonarlintOutput)
      end
  end.

(** The promise returned by [performIsIgnoredCheck]: [Js.Ok] when it resolves,
    [Js.Throw] when it rejects. *)
Definition performIsIgnoredCheck (host : ScmHost) (fileUri : string)
    (scmCheck : string -> string -> Js.result bool)
    (sonarlintOutput : option (list string))
  : Js.result bool * option (list string) :=
  let parsedFileUri := Uri_parse host fileUri in
  match getWorkspaceFolder host parsedFileUri with
  | None =>
      (Js.Ok false,
       logToSonarLintOutput
         ("The '" +:+ fileUri +:+ "' file is not in the workspace, consider as not ignored")
         sonarlintOutput)
  | Some _ =>
      match getExtension host "vscode.git" with
      | None => (Js.Throw Js.TypeError, sonarlintOutput) (* [.exports] of [undefined] *)
      | Some extension =>
          match exports extension with
          | None =>
              (Js.Ok false,
               logToSonarLintOutput
                 ("The git extension is not installed, consider the '" +:+ fileUri
                  +:+ "' file as not ignored")
                 sonarlintOutput)
          | Some gitExtension =>
              match performIsIgnoredCheck_try gitExtension fileUri parsedFileUri
                      scmCheck sonarlintOutput with
              | (Js.Ok fileIgnoredForFolder, out) => (Js.Ok fileIgnoredForFolder, out)
              | (Js.Throw _, out) =>
                  (Js.Ok false,
                   logToSonarLintOutput
                     ("Error requesting ignored status, consider the '" +:+ fileUri
                      +:+ "' file as not ignored")
                     out)
              end
          end
      end
  end.

(** ** Vocabulary of the properties *)

(** The connection id under which a binding is filed: its [connectionId],
    else its [serverId], else ['<default>']. *)
Definition effectiveConnectionId (b : ProjectBinding) : string :=
  Js.or_else (connectionId b) (Js.or_else (serverId b) DEFAULT_CONNECTION_ID).

(** [bf] is in the list found under [connectionId], then [projectKey]. *)
Definition placed (bindings : JsMap.t (JsMap.t (list BoundFolder)))
    (connectionId projectKey : string) (bf : BoundFolder) : Prop :=
  ∃ perProjectKey folders,
    JsMap.get connectionId bindings = Some perProjectKey
    ∧ JsMap.get projectKey perProjectKey = Some folders
    ∧ bf ∈ folders.

(** The folder [f] occurs somewhere in the bindings. *)
Definition included (bindings : JsMap.t (JsMap.t (list BoundFolder)))
    (f : WorkspaceFolder) : Prop :=
  ∃ connectionId projectKey bf,
    placed bindings connectionId projectKey bf ∧ folder bf = f.

(** ** Sample states *)

Definition folderA : WorkspaceFolder :=
  {| uri := {| toString := "file:///work/a"; fsPath := "/work/a" |};
     name := "a"; index := 0 |}.

Definition folderB : WorkspaceFolder :=
  {| uri := {| toString := "file:///work/b"; fsPath := "/work/b" |};
     name := "b"; index := 1 |}.

Definition emptyBinding : ProjectBinding :=
  {| projectKey := None; serverId := None; connectionId := None |}.

(** Nothing is configured at any level; the default value is the empty
    object. *)
Definition noSettings : Settings :=
  {| defaultValue := emptyBinding; globalValue := None;
     workspaceValue := None; workspaceFolderValue := ∅ |}.

(** A workspace of two folders with no binding, and a user who selects the
    first item of a quick-pick. *)
Definition twoFolders : Host :=
  {| workspaceFolders := Some [folderA; folderB]; settings := noSettings;
     shown := []; quickPickAnswer := λ items, head items |}.

(** The folder that an argument of [deleteBinding] designates. *)
Definition designates (arg : WorkspaceFolderItem + BoundFolder)
    (f : WorkspaceFolder) : Prop :=
  match arg with
  | inl item => item_uri item = uri f
  | inr bound => folder bound = f
  end.

(** The folder [a] as [getAllBindings] lists it in [boundAtWorkspaceLevel]
    below. *)
Definition boundFolderA : BoundFolder :=
  {| folder := folderA;
     binding := {| projectKey := Some "own-project"; serverId := None;
                   connectionId := Some "my-connection" |} |}.

(** A workspace whose settings bind every folder to one project, and whose
    folder [a] has a binding of its own besides. *)
Definition boundAtWorkspaceLevel : Host :=
  {| workspaceFolders := Some [folderA];
     settings :=
       {| defaultValue := emptyBinding;
          globalValue := None;
          workspaceValue :=
            Some {| projectKey := Some "shared-project"; serverId := None;
                    connectionId := Some "my-connection" |};
          workspaceFolderValue :=
            {[ "file:///work/a" :=
                 {| projectKey := Some "own-project"; serverId := None;
                    connectionId := Some "my-connection" |} ]} |};
     shown := [];
     quickPickAnswer := λ items, head items |}.

(** [bf] is in the list of an entry [projectKey] of an entry [connectionId]. *)
Definition entry_placed (bindings : JsMap.t (JsMap.t (list BoundFolder)))
    (connectionId projectKey : string) (bf : BoundFolder) : Prop :=
  ∃ perProjectKey folders,
    (connectionId, perProjectKey) ∈ bindings
    ∧ (projectKey, folders) ∈ perProjectKey
    ∧ bf ∈ folders.

(** The keys of the workspace-folder level that deleting these bound folders
    removes. *)
Definition deletedKeys (l : list BoundFolder) : list string :=
  map (λ bf, toString (uri (folder bf))) l.

(** The folder [a] of [twoFolders] after "Bind Manually" on it, and the
    connection without an id. *)
Definition manuallyBound : Host := bindManuallyAction folderA twoFolders.

Definition defaultConnection : Connection := {| id := None |}.

(** Two arrays of quick-pick items in a store: the suggested projects at
    reference 0, the remote projects at reference 1. *)
Definition item (name key : string) : QuickPickItem :=
  {| label := name; description := Some key; buttons := [] |}.

Definition twoArrays : Arrays.store :=
  {[ 0 := [item "Alpha" "alpha"];
     1 := [item "Beta" "beta"; item "Alpha" "alpha"; item "Gamma" "gamma"] ]}.

(** A comparison of strings by their lengths, and a language client that
    knows two projects of the connection ['my-connection'] and fails on every
    other one. *)
Definition compareLengths (a b : string) : Z :=
  (Z.of_nat (String.length a) - Z.of_nat (String.length b))%Z.

Definition twoProjects : BindingService :=
  {| languageClient :=
       {| getRemoteProjectsForConnection := λ connectionId,
            if decide (connectionId = "my-connection")
            then Js.Ok [("key-1", "Project One"); ("key-2", "Second")]
            else Js.Throw "connection failed" |};
     workspaceState := ∅ |}.

(** A file of the folder [a], and editors in which the git extension is
    missing, or active with a repository at the folder [a]. *)
Definition parseFileUri (value : string) : Uri :=
  {| toString := value;
     fsPath := String.substring 7 (String.length value - 7) value |}.

Definition withoutGit : ScmHost :=
  {| Uri_parse := parseFileUri;
     getWorkspaceFolder := λ _, Some folderA;
     getExtension := λ _, None |}.

Definition withGit : ScmHost :=
  {| Uri_parse := parseFileUri;
     getWorkspaceFolder := λ _, Some folderA;
     getExtension := λ _,
       Some {| exports :=
                 Some {| getAPI := λ _,
                           Js.Ok {| git_path := "/usr/bin/git";
                                    getRepository := λ _,
                                      Js.Ok (Some {| rootUri := uri folderA |}) |} |} |} |}.

(** ** Vocabulary of further properties *)

(** The bound folders of the bindings, connection after connection and
    project key after project key. *)
Definition listedFolders (bindings : JsMap.t (JsMap.t (list BoundFolder)))
  : list BoundFolder :=
  concat (map (λ perProjectKey, concat (JsMap.values perProjectKey))
            (JsMap.values bindings)).

(** No key occurs twice, no connection id has an empty map and no project key
    an empty list. *)
Definition well_formed (bindings : JsMap.t (JsMap.t (list BoundFolder))) : Prop :=
  NoDup (map fst bindings)
  ∧ ∀ c perProjectKey, (c, perProjectKey) ∈ bindings ->
      perProjectKey ≠ []
      ∧ NoDup (map fst perProjectKey)
      ∧ ∀ p folders, (p, folders) ∈ perProjectKey -> folders ≠ [].

(** The workspace folders that have a non-empty project key, each with its
    stored binding, in the order of the workspace. *)
Definition boundWorkspaceFolders (h : Host) : list BoundFolder :=
  map (λ f, {| folder := f;
               binding := getConfiguration_get (ScopeUri (uri f)) h |})
    (List.filter (λ f, isBound f h) (default [] (workspaceFolders h))).

(** The folder is bound and its binding is filed under the connection id. *)
Definition boundTo (connectionId : string) (f : WorkspaceFolder) (h : Host) : Prop :=
  Js.truthy (projectKey (getConfiguration_get (ScopeUri (uri f)) h)) = true
  ∧ effectiveConnectionId (getConfiguration_get (ScopeUri (uri f)) h) = connectionId.

(** ** More of [connected/binding.ts] *)

Definition OPEN_FOLDER_ACTION : string := "Open Folder".

(** [deleteBindingWithConfirmation]: [serverType] is the field of that name of
    the item, [confirm] what the modal warning answers: the button chosen, or
    [undefined] when it is dismissed. *)
Definition deleteBindingWithConfirmation (binding : WorkspaceFolderItem)
    (serverType : ServerType) (confirm : option string) (h : Host) : Host :=
  let deleteAction := "Delete" in
  let h :=
    show (ShowWarningMessage
            ("Are you sure you want to delete " +:+ ServerType_string serverType
             +:+ " project binding '" +:+ item_name binding +:+ "'?")
            [deleteAction]) h in
  if decide (confirm ≠ Some deleteAction) then h
  else deleteBinding (inl binding) h.

(** The call of [pickRemoteProjectToBind] that ends [createOrEditBinding]. *)
Record PickRemoteProject := {
  pick_connectionId : string;
  pick_workspaceFolder : option WorkspaceFolder;
  pick_serverType : ServerType;
  pick_selectedFolderName : option string
}.

(** [workspaceFolders.find(f => f.name === selectedFolderName)] *)
Definition find_by_name (selectedFolderName : option string)
    (workspaceFolders : list WorkspaceFolder) : option WorkspaceFolder :=
  List.find (λ f, bool_decide (Some (name f) = selectedFolderName)) workspaceFolders.

(** [createOrEditBinding], up to its last call, which is returned when it is
    reached.  [action] is what the warning about the missing folder answers. *)
Definition createOrEditBinding (connectionId contextValue : string)
    (workspaceFolder : option WorkspaceFolder) (serverType : option ServerType)
    (action : option string) (h : Host) : option PickRemoteProject * Host :=
  match workspaceFolders h with
  | None =>
      let h :=
        show (ShowWarningMessage
                "No folder to bind, please open a workspace or folder first"
                [OPEN_FOLDER_ACTION]) h in
      (None,
       if decide (action = Some OPEN_FOLDER_ACTION)
       then show (ExecuteCommand "vscode.openFolder") h
       else h)
  | Some workspaceFolders =>
      let serverType :=
        match serverType with
        | Some serverType => serverType
        | None =>
            if decide (contextValue = "sonarqubeConnection")
            then SonarQube else SonarCloud
        end in
      let '(selectedFolderName, workspaceFolder, h) :=
        match workspaceFolder with
        | Some workspaceFolder =>
            (Some (name workspaceFolder), Some workspaceFolder, h)
        | None =>
            let '(selectedFolderName, h) :=
              showFolderSelectionQuickPickOrReturnDefaultSelection
                workspaceFolders h in
            (selectedFolderName, find_by_name selectedFolderName workspaceFolders, h)
        end in
      (Some {| pick_connectionId := connectionId;
               pick_workspaceFolder := workspaceFolder;
               pick_serverType := serverType;
               pick_selectedFolderName := selectedFolderName |},
       h)
  end.

(** ** More of [extension.ts] *)

(** [enum GitReturnCode] *)
Definition E_OK : Z := 0.
Definition E_FAIL : Z := 1.
Definition E_INVALID : Z := 128.

(** [array.indexOf(x)] on an array of numbers, for [x] a number or
    [undefined]; [i] is the index of the head of [l]. *)
Fixpoint Array_indexOf (l : list Z) (x : option Z) (i : Z) : Z :=
  match l with
  | [] => (-1)%Z
  | y :: l' => if decide (x = Some y) then i else Array_indexOf l' x (i + 1)%Z
  end.

Definition isNeitherOkNorFail (code : option Z) : bool :=
  bool_decide (Array_indexOf [E_OK; E_FAIL] code 0 < 0)%Z.

(** What [ChildProcess.exec] hands to its callback: the error, if any, with
    its text and its code, and the two outputs. *)
Record ExecError := { error_text : string; error_code : option Z }.

Record ExecOutcome := {
  exec_error : option ExecError;
  exec_stdout : string;
  exec_stderr : string
}.

(** [isIgnored].  [exec] runs a command in a working directory; [verbose] is
    [isVerboseEnabled()]. *)
Definition isIgnored (exec : string -> string -> ExecOutcome) (verbose : bool)
    (workspaceFolderPath gitCommand : string)
    (sonarlintOutput : option (list string))
  : Js.result bool * option (list string) :=
  let outcome := exec gitCommand workspaceFolderPath in
  let fatal :=
    match exec_error outcome with
    | Some error => if isNeitherOkNorFail (error_code error) then Some error else None
    | None => None
    end in
  match fatal with
  | Some error =>
      (Js.Throw (error_text error),
       if verbose
       then logToSonarLintOutput
              ("Error on git command " +:+ dquote +:+ gitCommand +:+ dquote
               +:+ ": " +:+ error_text error)
              sonarlintOutput
       else sonarlintOutput)
  | None =>
      let sout := exec_stdout outcome in
      let serr := exec_stderr outcome in
      if Js.truthy (Some serr) then (Js.Ok false, sonarlintOutput)
      else (Js.Ok (bool_decide (0 < String.length sout)), sonarlintOutput)
  end.

(** [performIsIgnoredCheck] for a check that may write to the output
    channel, as [isIgnored] does. *)
Definition performIsIgnoredCheck_with (host : ScmHost) (fileUri : string)
    (scmCheck : string -> string -> option (list string) ->
                Js.result bool * option (list string))
    (sonarlintOutput : option (list string))
  : Js.result bool * option (list string) :=
  let parsedFileUri := Uri_parse host fileUri in
  match getWorkspaceFolder host parsedFileUri with
  | None =>
      (Js.Ok false,
       logToSonarLintOutput
         ("The '" +:+ fileUri +:+ "' file is not in the workspace, consider as not ignored")
         sonarlintOutput)
  | Some _ =>
      match getExtension host "vscode.git" with
      | None => (Js.Throw Js.TypeError, sonarlintOutput)
      | Some extension =>
          match exports extension with
          | None =>
              (Js.Ok false,
               logToSonarLintOutput
                 ("The git extension is not installed, consider the '" +:+ fileUri
                  +:+ "' file as not ignored")
                 sonarlintOutput)
          | Some gitExtension =>
              let attempt :=
                match getAPI gitExtension 1 with
                | Js.Throw e => (Js.Throw e, sonarlintOutput)
                | Js.Ok gitApi =>
                    let gitPath := git_path gitApi in
                    match getRepository gitApi parsedFileUri with
                    | Js.Throw e => (Js.Throw e, sonarlintOutput)
                    | Js.Ok (Some repo) =>
                        let command :=
                          dquote +:+ gitPath +:+ dquote +:+ " check-ignore "
                          +:+ dquote +:+ fsPath parsedFileUri +:+ dquote in
                        scmCheck (fsPath (rootUri repo)) command sonarlintOutput
                    | Js.Ok None =>
                        (Js.Ok false,
                         logToSonarLintOutput
                           ("The '" +:+ fileUri
                            +:+ "' file is not in a git repo, consider as not ignored")
                           sonarlintOutput)
                    end
                end in
              match attempt with
              | (Js.Ok fileIgnoredForFolder, out) => (Js.Ok fileIgnoredForFolder, out)
              | (Js.Throw _, out) =>
                  (Js.Ok false,
                   logToSonarLintOutput
                     ("Error requesting ignored status, consider the '" +:+ fileUri
                      +:+ "' file as not ignored")
                     out)
              end
          end
      end
  end.

Definition isIgnoredByScm (host : ScmHost) (exec : string -> string -> ExecOutcome)
    (verbose : bool) (fileUri : string) (sonarlintOutput : option (list string))
  : Js.result bool * option (list string) :=
  performIsIgnoredCheck_with host fileUri (isIgnored exec verbose) sonarlintOutput.

Definition CR : ascii := "013"%char.
Definition LF : ascii := "010"%char.

(** [s.split(/\r\n|\r|\n/)] *)
Fixpoint splitLines (s : string) : list string :=
  match s with
  | EmptyString => [""]
  | String c rest =>
      if decide (c = CR) then
        match rest with
        | String c' rest' =>
            if decide (c' = LF) then "" :: splitLines rest'
            else "" :: splitLines rest
        | EmptyString => "" :: splitLines rest
        end
      else if decide (c = LF) then "" :: splitLines rest
      else
        match splitLines rest with
        | l :: ls => String c l :: ls
        | [] => [String c ""]
        end
  end.

(** [logWithPrefix]; [verbose] is [isVerboseEnabled()], [data] the text of
    the chunk received. *)
Definition logWithPrefix (verbose : bool) (data prefix : string)
    (sonarlintOutput : option (list string)) : option (list string) :=
  if verbose then
    let lines := splitLines data in
    fold_left
      (λ sonarlintOutput l,
         if bool_decide (0 < String.length l)
         then logToSonarLintOutput (prefix +:+ " " +:+ l) sonarlintOutput
         else sonarlintOutput)
      lines sonarlintOutput
  else sonarlintOutput.

(** The characters of a string that are no line terminators. *)
Definition withoutTerminators (s : string) : list ascii :=
  filter (λ c, c ≠ CR ∧ c ≠ LF) (String.list_ascii_of_string s).

(** The two values of [protocol.ConfigLevel] that the code compares with. *)
Inductive ConfigLevel := on | off.

#[global] Instance ConfigLevel_eq_dec : EqDecision ConfigLevel.
Proof. solve_decision. Defined.

(** An entry of the setting [sonarlint.rules]: its level and the parameters
    it may carry. *)
Record RuleConfig := {
  level : ConfigLevel;
  parameters : option (list (string * string))
}.

(** What [toggleRule] reads of a [RuleNode]: the key of its rule and whether
    the rule is active by default. *)
Record RuleNode := { rule_key : string; rule_activeByDefault : bool }.

(** The function that [toggleRule(level)] returns, applied to a rule key or a
    rule node.  [rules] is what [configuration.get('rules')] answers; the
    result is the object given to [configuration.update('rules', ...,
    ConfigurationTarget.Global)], in which a property may hold [undefined]. *)
Definition toggleRule (level : ConfigLevel) (ruleKey : string + RuleNode)
    (rules : option (gmap string (option RuleConfig)))
  : gmap string (option RuleConfig) :=
  let rules := default ∅ rules in
  match ruleKey with
  | inl ruleKey =>
      <[ruleKey := Some {| level := level; parameters := None |}]> rules
  | inr ruleNode =>
      let key := rule_key ruleNode in
      let activeByDefault := rule_activeByDefault ruleNode in
      if (bool_decide (level = on) && negb activeByDefault)
         || (bool_decide (level = off) && activeByDefault)
      then <[key := Some {| level := level; parameters := None |}]> rules
      else <[key := None]> rules
  end.

(** Whether a rule is active under the rules setting: as its entry says, or,
    without an entry, as by default. *)
Definition ruleIsActive (rules : gmap string (option RuleConfig)) (key : string)
    (activeByDefault : bool) : bool :=
  match rules !! key with
  | Some (Some config) => bool_decide (level config = on)
  | _ => activeByDefault
  end.

(** A value kept in a memento or read from a configuration: a boolean or a
    string. *)
Inductive JsValue :=
| JsBool (b : bool)
| JsString (s : string).

#[global] Instance JsValue_eq_dec : EqDecision JsValue.
Proof. solve_decision. Defined.

Definition JsValue_truthy (v : JsValue) : bool :=
  match v with
  | JsBool b => b
  | JsString s => if decide (s = "") then false else true
  end.

Definition FIRST_SECRET_ISSUE_DETECTED_KEY : string :=
  "FIRST_SECRET_ISSUE_DETECTED_KEY".

(** [showNotificationForFirstSecretsIssue]; [action] is the answer to the
    warning, which is followed up once the key is stored. *)
Definition showNotificationForFirstSecretsIssue (action : option string)
    (globalState : gmap string JsValue) (shown : list UiEvent)
  : gmap string JsValue * list UiEvent :=
  let showProblemsViewActionTitle := "Show Problems View" in
  let shown :=
    shown
    ++ [ShowWarningMessage
          ("SonarLint detected some secrets in one of the open files." +:+ newline
           +:+ "We strongly advise you to review those secrets and ensure they are not committed into repositories. "
           +:+ "Please refer to the Problems view for more information.")
          [showProblemsViewActionTitle]] in
  let globalState := <[FIRST_SECRET_ISSUE_DETECTED_KEY := JsBool true]> globalState in
  (globalState,
   if decide (action = Some showProblemsViewActionTitle)
   then shown ++ [ExecuteCommand "workbench.panel.markers.view.focus"]
   else shown).

(** [isFirstSecretDetected]: what it returns and the global state after it. *)
Definition isFirstSecretDetected (globalState : gmap string JsValue)
  : JsValue * gmap string JsValue :=
  let result := globalState !! FIRST_SECRET_ISSUE_DETECTED_KEY in
  let globalState :=
    match result with
    | Some (JsString result) =>
        (* migrate *)
        <[FIRST_SECRET_ISSUE_DETECTED_KEY := JsBool (bool_decide (result = "true"))]>
          globalState
    | _ => globalState
    end in
  (default (JsBool false) (globalState !! FIRST_SECRET_ISSUE_DETECTED_KEY),
   globalState).

Definition DO_NOT_ASK_ABOUT_COMPILE_COMMANDS_FLAG : string :=
  "doNotAskAboutCompileCommands".

(** What [notifyMissingCompileCommands] reads and writes: the workspace state,
    the variable [remindMeLaterAboutCompileCommandsFlag] of the module, and
    the windows. *)
Record CompileCommandsPrompt := {
  prompt_workspaceState : gmap string JsValue;
  remindMeLaterAboutCompileCommandsFlag : bool;
  prompt_shown : list UiEvent
}.

Definition doNotAskAboutCompileCommandsFlag (workspaceState : gmap string JsValue)
  : JsValue :=
  default (JsBool false) (workspaceState !! DO_NOT_ASK_ABOUT_COMPILE_COMMANDS_FLAG).

(** [notifyMissingCompileCommands]; [selection] is the answer to the warning
    when it is shown.  The boolean says whether
    [configureCompilationDatabase()] is called. *)
Definition notifyMissingCompileCommands (selection : option string)
    (st : CompileCommandsPrompt) : bool * CompileCommandsPrompt :=
  if JsValue_truthy (doNotAskAboutCompileCommandsFlag (prompt_workspaceState st))
     || remindMeLaterAboutCompileCommandsFlag st
  then (false, st)
  else
    let doNotAskAgainAction := "Don't ask again" in
    let remindMeLaterAction := "Ask me later" in
    let configureCompileCommandsAction := "Configure compile commands" in
    let message :=
      "SonarLint is unable to analyze C and C++ file(s) because there is no configured compilation "
      +:+ newline +:+ "    database." in
    let shown :=
      prompt_shown st
      ++ [ShowWarningMessage message
            [configureCompileCommandsAction; remindMeLaterAction;
             doNotAskAgainAction]] in
    if decide (selection = Some doNotAskAgainAction) then
      (false,
       {| prompt_workspaceState :=
            <[DO_NOT_ASK_ABOUT_COMPILE_COMMANDS_FLAG := JsBool true]>
              (prompt_workspaceState st);
          remindMeLaterAboutCompileCommandsFlag :=
            remindMeLaterAboutCompileCommandsFlag st;
          prompt_shown := shown |})
    else if decide (selection = Some configureCompileCommandsAction) then
      (true,
       {| prompt_workspaceState := prompt_workspaceState st;
          remindMeLaterAboutCompileCommandsFlag :=
            remindMeLaterAboutCompileCommandsFlag st;
          prompt_shown := shown |})
    else if decide (selection = Some remindMeLaterAction) then
      (false,
       {| prompt_workspaceState := prompt_workspaceState st;
          remindMeLaterAboutCompileCommandsFlag := true;
          prompt_shown := shown |})
    else
      (false,
       {| prompt_workspaceState := prompt_workspaceState st;
          remindMeLaterAboutCompileCommandsFlag :=
            remindMeLaterAboutCompileCommandsFlag st;
          prompt_shown := shown |}).

(** A snapshot of the configuration of the extension, [key] by [key]. *)
Definition configKeyEquals (key : string) (oldConfig newConfig : gmap string JsValue)
  : bool :=
  bool_decide (oldConfig !! key = newConfig !! key).

Definition hasSonarLintLsConfigChanged (oldConfig newConfig : gmap string JsValue)
  : bool :=
  negb (configKeyEquals "ls.javaHome" oldConfig newConfig)
  || negb (configKeyEquals "ls.vmargs" oldConfig newConfig).

Definition hasNodeJsConfigChanged (oldConfig newConfig : gmap string JsValue)
  : bool :=
  negb (configKeyEquals "pathToNodeExecutable" oldConfig newConfig).

(** The variable [currentConfig] of the module, and the windows. *)
Record ConfigurationWatch := {
  currentConfig : gmap string JsValue;
  watch_shown : list UiEvent
}.

(** The listener that [onConfigurationChange] installs.  [affectsSonarLint]
    is [event.affectsConfiguration('sonarlint')], [newConfig] what
    [getSonarLintConfiguration()] answers, [selection] the answer to the
    warning when it is shown.  The boolean says whether
    [migrateConnectedModeSettings] is called. *)
Definition onConfigurationChange_listener (affectsSonarLint : bool)
    (newConfig : gmap string JsValue) (selection : option string)
    (st : ConfigurationWatch) : bool * ConfigurationWatch :=
  if negb affectsSonarLint then (false, st)
  else
    let sonarLintLsConfigChanged :=
      hasSonarLintLsConfigChanged (currentConfig st) newConfig
      || hasNodeJsConfigChanged (currentConfig st) newConfig in
    let st :=
      if sonarLintLsConfigChanged then
        let msg :=
          "SonarLint Language Server configuration changed, please restart VS Code." in
        let action := "Restart Now" in
        let restartId := "workbench.action.reloadWindow" in
        {| currentConfig := newConfig;
           watch_shown :=
             watch_shown st ++ [ShowWarningMessage msg [action]]
             ++ (if decide (selection = Some action)
                 then [ExecuteCommand restartId] else []) |}
      else st in
    (true, st).

(** A prompt state in which nothing was answered yet. *)
Definition freshPrompt : CompileCommandsPrompt :=
  {| prompt_workspaceState := ∅;
     remindMeLaterAboutCompileCommandsFlag := false;
     prompt_shown := [] |}.

(** [s.replace(pattern, replacement)] for a string pattern and a replacement
    without [$]: the first occurrence of the pattern is replaced. *)
Definition String_replace (s pattern replacement : string) : string :=
  match String.index 0 pattern s with
  | Some n =>
      String.substring 0 n s +:+ replacement
      +:+ String.substring (n + String.length pattern)
            (String.length s - (n + String.length pattern)) s
  | None => s
  end.

(** The values of the setting [sonarlint.pathToCompileCommands] at the
    workspace level and, by folder URI, at the workspace-folder level. *)
Record CompileCommandsSettings := {
  compileCommands_workspaceValue : option string;
  compileCommands_workspaceFolderValue : gmap string string
}.

(** [interface IndexQP] *)
Record IndexQP := { qp_label : string; qp_description : string; qp_index : nat }.

Section CompilationDatabase.

(** [Path.isAbsolute], which depends on the platform, and
    [a.localeCompare(b)]. *)
Variable isAbsolute : string -> bool.
Variable localeCompare : string -> string -> Z.

(** The loop of [tryRelativizeToWorkspaceFolder] over the workspace folders. *)
Fixpoint tryRelativize_loop (path : string) (folders : list WorkspaceFolder)
  : string * option WorkspaceFolder :=
  match folders with
  | [] => (path, None)
  | folder :: folders' =>
      let folderPath := fsPath (uri folder) in
      if String.prefix folderPath path then
        let pathWithVariable :=
          "${workspaceFolder}" +:+ String_replace path folderPath "" in
        (pathWithVariable, Some folder)
      else tryRelativize_loop path folders'
  end.

Definition tryRelativizeToWorkspaceFolder (path : string) (h : Host)
  : string * option WorkspaceFolder :=
  if negb (isAbsolute path) then (path, None)
  else tryRelativize_loop path (default [] (workspaceFolders h)).

Definition showMessageAndUpdateConfig (compilationDbPath : string) (h : Host)
    (s : CompileCommandsSettings) : Host * CompileCommandsSettings :=
  let h :=
    show (ShowInformationMessage
            ("Analysis configured. Compilation database path is set to: "
             +:+ compilationDbPath)) h in
  let '(pathForSettings, workspaceFolder) :=
    tryRelativizeToWorkspaceFolder compilationDbPath h in
  match workspaceFolder with
  | Some workspaceFolder =>
      (h,
       {| compileCommands_workspaceValue := compileCommands_workspaceValue s;
          compileCommands_workspaceFolderValue :=
            <[toString (uri workspaceFolder) := pathForSettings]>
              (compileCommands_workspaceFolderValue s) |})
  | None =>
      (h,
       {| compileCommands_workspaceValue := Some pathForSettings;
          compileCommands_workspaceFolderValue :=
            compileCommands_workspaceFolderValue s |})
  end.

Definition compareItems (i1 i2 : IndexQP) : Prop :=
  (localeCompare (qp_label i1) (qp_label i2) <= 0)%Z.

#[local] Instance compareItems_dec : RelDecision compareItems.
Proof. intros i1 i2. unfold compareItems. apply _. Defined.

(** [showCompilationDatabaseOptions].  [pick] is what the user selects in the
    quick-pick over the given items; the quick-pick has a placeholder and no
    title. *)
Definition showCompilationDatabaseOptions (pick : list IndexQP -> option IndexQP)
    (paths : list Uri) (h : Host) (s : CompileCommandsSettings)
  : Js.result (Host * CompileCommandsSettings) :=
  if decide (length paths = 1) then
    match paths !! 0 with
    | Some path => Js.Ok (showMessageAndUpdateConfig (fsPath path) h s)
    | None => Js.Throw Js.TypeError
    end
  else
    let items :=
      imap (λ i path, {| qp_label := fsPath path; qp_description := ""; qp_index := i |})
        paths in
    let items := Array_sort compareItems items in
    let h := show (ShowQuickPick (map qp_label items) "" "Pick a compilation database") h in
    match pick items with
    | Some selection =>
        match paths !! qp_index selection with
        | Some path => Js.Ok (showMessageAndUpdateConfig (fsPath path) h s)
        | None => Js.Throw Js.TypeError
        end
    | None => Js.Ok (h, s)
    end.

(** [configureCompilationDatabase]; [paths] are the files named
    [compile_commands.json] found in the workspace that exist. *)
Definition configureCompilationDatabase (pick : list IndexQP -> option IndexQP)
    (paths : list Uri) (h : Host) (s : CompileCommandsSettings)
  : Js.result (Host * CompileCommandsSettings) :=
  if decide (length paths = 0) then
    Js.Ok
      (show (ShowWarningMessage
               ("No compilation databases were found in the workspace" +:+ newline
                +:+ " " +:+ newline
                +:+ "[How to generate compile commands](https://github.com/SonarSource/sonarlint-vscode/wiki/C-and-CPP-Analysis)")
               []) h,
       {| compileCommands_workspaceValue := None;
          compileCommands_workspaceFolderValue :=
            compileCommands_workspaceFolderValue s |})
  else showCompilationDatabaseOptions pick paths h s.

End CompilationDatabase.

(** Paths that start with a slash are absolute, as on POSIX platforms. *)
Definition isAbsolute_posix (path : string) : bool := String.prefix "/" path.

Definition noCompileCommands : CompileCommandsSettings :=
  {| compileCommands_workspaceValue := None;
     compileCommands_workspaceFolderValue := ∅ |}.

(** A workspace whose folder [a] is bound to the connection
    ['my-connection'] and whose folder [b] is bound to the default one, both at
    the workspace-folder level, and the connection ['my-connection']. *)
Definition boundToTwoConnections : Host :=
  {| workspaceFolders := Some [folderA; folderB];
     settings :=
       {| defaultValue := emptyBinding;
          globalValue := None;
          workspaceValue := None;
          workspaceFolderValue :=
            {[ "file:///work/a" :=
                 {| projectKey := Some "project-a"; serverId := None;
                    connectionId := Some "my-connection" |};
               "file:///work/b" :=
                 {| projectKey := Some "project-b"; serverId := None;
                    connectionId := None |} ]} |};
     shown := [];
     quickPickAnswer := λ items, head items |}.

Definition myConnection : Connection := {| id := Some "my-connection" |}.

(** A line terminator of the split of [logWithPrefix]: carriage return or
    line feed. *)
Definition isTerminator (c : ascii) : Prop := c = "013"%char ∨ c = "010"%char.

(** The characters [cs] cut into stretches: first the terminators [gap], then
    each piece of [rest], which is a non-empty stretch without terminators
    followed by the terminators after it.  Between two pieces there is at
    least one terminator, so that the pieces are the longest stretches
    without terminators, in order. *)
Definition stretches (cs : list ascii) (gap : list ascii)
    (rest : list (string * list ascii)) : Prop :=
  cs = gap ++ concat (map (λ piece, String.list_ascii_of_string piece.1 ++ piece.2) rest)
  ∧ Forall isTerminator gap
  ∧ Forall (λ piece,
              piece.1 ≠ ""
              ∧ Forall (λ c, ¬ isTerminator c) (String.list_ascii_of_string piece.1)
              ∧ Forall isTerminator piece.2) rest
  ∧ ∀ i piece, rest !! i = Some piece -> S i < length rest -> piece.2 ≠ [].

(** * Properties *)

(** ** The embedded functions on the sample states *)

Example getAllBindings_after_two_saves :
  ∃ h1 h2,
    saveBinding "project-x" (Some "conn-1") (Some folderA) twoFolders = Js.Ok h1
    ∧ saveBinding "project-x" None (Some folderB) h1 = Js.Ok h2
    ∧ getAllBindings h2
      = [ ("conn-1",
           [ ("project-x",
              [ {| folder := folderA;
                   binding := {| projectKey := Some "project-x"; serverId := None;
                                 connectionId := Some "conn-1" |} |} ]) ]);
          ("<default>",
           [ ("project-x",
              [ {| folder := folderB;
                   binding := {| projectKey := Some "project-x"; serverId := None;
                                 connectionId := None |} |} ]) ]) ].
Proof. eexists _, _. split_and!; [reflexivity|reflexivity|]. vm_compute. reflexivity. Qed.

Example getAllBindings_manuallyBound : getAllBindings manuallyBound = [].
Proof. vm_compute. reflexivity. Qed.

Example cleanRemoteName_examples :
  cleanRemoteName None = "none"
  ∧ cleanRemoteName (Some "") = "none"
  ∧ cleanRemoteName (Some "wsl+Ubuntu") = "wsl"
  ∧ cleanRemoteName (Some "ssh-remote+host") = "ssh-remote"
  ∧ cleanRemoteName (Some "my-wsl") = "other".
Proof. split_and!; reflexivity. Qed.

Example getRemoteProjectsItems_sorted :
  fst (getRemoteProjectsItems compareLengths twoProjects "my-connection" folderA
         SonarCloud None twoFolders)
  = [ {| label := "Second"; description := Some "key-2";
         buttons := [ {| iconPath := "link-external";
                         tooltip := "View in SonarCloud" |} ] |};
      {| label := "Project One"; description := Some "key-1";
         buttons := [ {| iconPath := "link-external";
                         tooltip := "View in SonarCloud" |} ] |} ].
Proof. vm_compute. reflexivity. Qed.

(** ** [cleanRemoteName] *)

Lemma indexOf_zero_prefix (s res : string) :
  Js.indexOf s res = 0%Z ↔ String.prefix res s = true.
Proof.
  unfold Js.indexOf. destruct s as [|c s].
  - destruct res; simpl; split; intros; done.
  - simpl. destruct res as [|d res]; simpl; [done|].
    destruct (Ascii.ascii_dec d c), (String.prefix res s); simpl;
      try (destruct (String.index 0 (String d res) s));
      split; intros; try done; lia.
Qed.

(** A [forEach] that overwrites a variable at each element that passes a test
    leaves in it the last such element. *)
Lemma forEach_last_match {A} (P : A -> Prop) `{!∀ x, Decision (P x)}
    (l : list A) (d : A) :
  fold_left (λ ret res, if decide (P res) then res else ret) l d
  = default d (last (filter P l)).
Proof.
  revert d. induction l as [|x l IH]; intros d; [done|].
  cbn [fold_left]. rewrite IH. rewrite filter_cons.
  destruct (decide (P x)) as [Hx|Hx]; [|done].
  destruct (filter P l) as [|y l'] eqn:E; [done|].
  rewrite last_cons_cons. destruct (last (y :: l')) eqn:E'; [done|].
  by apply last_None in E'.
Qed.

Lemma allowedRemoteNames_exclusive (s r1 r2 : string) :
  r1 ∈ allowedRemoteNames -> r2 ∈ allowedRemoteNames ->
  String.prefix r1 s = true -> String.prefix r2 s = true -> r1 = r2.
Proof.
  unfold allowedRemoteNames. rewrite !elem_of_cons, !elem_of_nil.
  intros H1 H2 P1 P2. destruct s as [|c s].
  - destruct_or!; subst; simpl in *; done.
  - destruct_or!; subst; try done; exfalso; cbn [String.prefix] in P1, P2;
      repeat match goal with
             | H : context [Ascii.ascii_dec ?a c] |- _ =>
                 destruct (Ascii.ascii_dec a c); [subst c|discriminate H]
             end; done.
Qed.

Lemma allowedRemoteNames_distinct (r : string) :
  r ∈ allowedRemoteNames ->
  r ≠ "none" ∧ r ≠ "other" ∧ String.prefix r "" = false.
Proof.
  unfold allowedRemoteNames. rewrite !elem_of_cons, !elem_of_nil.
  intros H. destruct_or!; subst; done.
Qed.

Lemma cleanRemoteName_nonempty (s : string) :
  s ≠ "" ->
  cleanRemoteName (Some s)
  = default "other"
      (last (filter (λ r, String.prefix r s = true) allowedRemoteNames)).
Proof.
  intros Hs. unfold cleanRemoteName. simpl Js.truthy.
  destruct (decide (s = "")) as [|_]; [done|]. cbn [negb default].
  rewrite (forEach_last_match (λ res, Js.indexOf s res = 0%Z)).
  f_equal. f_equal. apply list_filter_iff. intros r. apply indexOf_zero_prefix.
Qed.

Lemma last_filter_allowed (s r : string) :
  last (filter (λ r, String.prefix r s = true) allowedRemoteNames) = Some r
  ↔ r ∈ allowedRemoteNames ∧ String.prefix r s = true.
Proof.
  split.
  - intros H. apply last_Some_elem_of in H. by apply list_elem_of_filter in H as [? ?].
  - intros [Hr Hp].
    destruct (last (filter (λ r, String.prefix r s = true) allowedRemoteNames))
      as [r'|] eqn:E.
    + pose proof (last_Some_elem_of _ _ E) as H'.
      apply list_elem_of_filter in H' as [Hp' Hr'].
      f_equal. by apply (allowedRemoteNames_exclusive s).
    + apply last_None in E.
      assert (r ∈ filter (λ r, String.prefix r s = true) allowedRemoteNames) as Hin
        by by apply list_elem_of_filter.
      rewrite E in Hin. by apply elem_of_nil in Hin.
Qed.

(** C9. [cleanRemoteName] answers a value of the fixed set ['none'], ['other']
    and the five allowed remote names.  It answers ['none'] exactly when the
    input is absent or empty, an allowed name [r] exactly when the input
    starts with [r] (the last matching name of the list being the one kept),
    and ['other'] exactly when the input is non-empty and starts with none of
    the allowed names. *)
Theorem cleanRemoteName_spec (remoteName : option string) :
  cleanRemoteName remoteName
  ∈ ["none"; "other"; "ssh-remote"; "dev-container"; "attached-container"; "wsl";
     "codespaces"]
  ∧ (cleanRemoteName remoteName = "none"
     ↔ remoteName = None ∨ remoteName = Some "")
  ∧ (∀ r, r ∈ ["ssh-remote"; "dev-container"; "attached-container"; "wsl";
               "codespaces"] ->
       cleanRemoteName remoteName = r
       ↔ ∃ s, remoteName = Some s ∧ String.prefix r s = true)
  ∧ (cleanRemoteName remoteName = "other"
     ↔ ∃ s, remoteName = Some s ∧ s ≠ ""
            ∧ ∀ r, r ∈ ["ssh-remote"; "dev-container"; "attached-container"; "wsl";
                        "codespaces"] ->
                   String.prefix r s = false)
  ∧ (∀ s, remoteName = Some s -> s ≠ "" ->
       cleanRemoteName remoteName
       = default "other"
           (last (filter (λ r, String.prefix r s = true)
                    ["ssh-remote"; "dev-container"; "attached-container"; "wsl";
                     "codespaces"]))).
Proof.
  change ["ssh-remote"; "dev-container"; "attached-container"; "wsl"; "codespaces"]
    with allowedRemoteNames.
  destruct remoteName as [s|]; [destruct (decide (s = "")) as [->|Hs]|].
  - (* the empty string *)
    split_and!; try done.
    + rewrite !elem_of_cons. auto.
    + split; [by right|done].
    + intros r Hr. destruct (allowedRemoteNames_distinct r Hr) as (Hn & _ & Hp).
      split; [done|]. intros (s & [= <-] & H). by rewrite Hp in H.
    + split; [done|]. by intros (s & [= <-] & ? & _).
    + by intros s [= <-].
  - (* a non-empty string *)
    pose proof (cleanRemoteName_nonempty s Hs) as Hc.
    pose proof (last_filter_allowed s) as Hl.
    destruct (last (filter (λ r, String.prefix r s = true) allowedRemoteNames))
      as [r0|] eqn:E; simpl in Hc.
    + destruct (proj1 (Hl r0) eq_refl) as [Hr0 Hp0]. rewrite Hc.
      split_and!.
      * rewrite !elem_of_cons. auto.
      * split; [|by intros [|[= ->]]].
        intros ->. by destruct (allowedRemoteNames_distinct _ Hr0) as (? & _).
      * intros r Hr. split.
        -- intros <-. eauto.
        -- intros (s' & [= <-] & Hp).
           assert (Some r0 = Some r) as [= ->]; [|done].
           by apply Hl.
      * split.
        -- intros ->. by destruct (allowedRemoteNames_distinct _ Hr0) as (_ & ? & _).
        -- intros (s' & [= <-] & _ & Hnone). rewrite (Hnone r0 Hr0) in Hp0. done.
      * intros s' [= <-] _. by rewrite E.
    + rewrite Hc. split_and!.
      * rewrite !elem_of_cons. auto.
      * split; [done|by intros [|[= ->]]].
      * intros r Hr. split.
        -- intros <-. by destruct (allowedRemoteNames_distinct _ Hr) as (_ & ? & _).
        -- intros (s' & [= <-] & Hp).
           assert (None = Some r) by (by apply Hl). done.
      * split; [|done]. intros _. exists s. split_and!; try done.
        intros r Hr. destruct (String.prefix r s) eqn:Hp; [|done].
        assert (None = Some r) by (by apply Hl). done.
      * intros s' [= <-] _. by rewrite E.
  - (* undefined *)
    split_and!; try done.
    + rewrite !elem_of_cons. auto.
    + split; [by left|done].
    + intros r Hr. split; [|by intros (s & ? & _)].
      intros <-. by destruct (allowedRemoteNames_distinct _ Hr) as (? & _).
    + split; [done|by intros (s & ? & _)].
Qed.

(** ** Insertion-ordered maps *)

Lemma JsMap_get_set_eq {V} (k : string) (v : V) (m : JsMap.t V) :
  JsMap.get k (JsMap.set k v m) = Some v.
Proof.
  induction m as [|[k' v'] m IH]; simpl.
  - by rewrite decide_True.
  - destruct (decide (k = k')) as [->|Hne]; simpl.
    + by rewrite decide_True.
    + by rewrite decide_False.
Qed.

Lemma JsMap_get_set_ne {V} (k k' : string) (v : V) (m : JsMap.t V) :
  k ≠ k' -> JsMap.get k' (JsMap.set k v m) = JsMap.get k' m.
Proof.
  intros Hne. induction m as [|[k0 v0] m IH]; simpl.
  - by rewrite decide_False.
  - destruct (decide (k = k0)) as [->|Hne0]; simpl.
    + by rewrite !decide_False.
    + by rewrite IH.
Qed.

Lemma JsMap_get_set {V} (k k' : string) (v : V) (m : JsMap.t V) :
  JsMap.get k' (JsMap.set k v m)
  = if decide (k = k') then Some v else JsMap.get k' m.
Proof.
  destruct (decide (k = k')) as [->|Hne].
  - apply JsMap_get_set_eq.
  - by apply JsMap_get_set_ne.
Qed.

(** ** [getAllBindings] *)

(** What one iteration of the loop adds to the bindings. *)
Lemma getAllBindings_body_placed (h : Host)
    (m : JsMap.t (JsMap.t (list BoundFolder))) (f : WorkspaceFolder)
    (c p : string) (bf : BoundFolder) :
  let b := getConfiguration_get (ScopeUri (uri f)) h in
  placed (getAllBindings_body h m f) c p bf
  ↔ placed m c p bf
    ∨ (Js.truthy (projectKey b) = true
       ∧ c = effectiveConnectionId b
       ∧ projectKey b = Some p
       ∧ bf = {| folder := f; binding := b |}).
Proof.
  intros b. unfold getAllBindings_body. fold b.
  destruct (Js.truthy (projectKey b)) eqn:Ht; [|by intuition].
  destruct (projectKey b) as [pk|] eqn:Hpk; [|done]. cbn [from_option Datatypes.id].
  fold (effectiveConnectionId b). set (cid := effectiveConnectionId b).
  (* the outer map once the connection id is known to it *)
  set (m1 := if JsMap.has cid m then m else JsMap.set cid JsMap.empty m).
  assert (∀ c', JsMap.get c' m1
                = if decide (cid = c')
                  then Some (default JsMap.empty (JsMap.get cid m))
                  else JsMap.get c' m) as Hm1.
  { intros c'. unfold m1, JsMap.has.
    destruct (JsMap.get cid m) as [inner|] eqn:Hg.
    - destruct (decide (cid = c')) as [<-|]; done.
    - rewrite JsMap_get_set. destruct (decide (cid = c')); done. }
  rewrite (Hm1 cid), decide_True by done. cbn [from_option Datatypes.id].
  set (inner := default JsMap.empty (JsMap.get cid m)).
  (* the inner map once the project key is known to it *)
  set (inner1 := if JsMap.has pk inner then inner else JsMap.set pk [] inner).
  assert (∀ p', JsMap.get p' inner1
                = if decide (pk = p')
                  then Some (default [] (JsMap.get pk inner))
                  else JsMap.get p' inner) as Hi1.
  { intros p'. unfold inner1, JsMap.has.
    destruct (JsMap.get pk inner) as [fs|] eqn:Hg.
    - destruct (decide (pk = p')) as [<-|]; done.
    - rewrite JsMap_get_set. destruct (decide (pk = p')); done. }
  rewrite (Hi1 pk), decide_True by done. cbn [from_option Datatypes.id].
  clearbody m1 inner1. unfold placed. split.
  - intros (perKey & fs & Hc & Hp & Hin). rewrite JsMap_get_set, Hm1 in Hc.
    destruct (decide (cid = c)) as [<-|Hc'].
    + injection Hc as <-. rewrite JsMap_get_set, Hi1 in Hp.
      destruct (decide (pk = p)) as [<-|Hp'].
      * injection Hp as <-. apply elem_of_app in Hin as [Hin|Hin].
        -- left. subst inner.
           destruct (JsMap.get cid m) as [inner0|] eqn:Hg; [|by apply elem_of_nil in Hin].
           cbn [from_option Datatypes.id] in Hin.
           destruct (JsMap.get pk inner0) as [fs0|] eqn:Hg'; [|by apply elem_of_nil in Hin].
           eauto.
        -- right. apply list_elem_of_singleton in Hin. done.
      * left. subst inner.
        destruct (JsMap.get cid m) as [inner0|] eqn:Hg; [|done]. eauto.
    + left. eauto.
  - intros [(perKey & fs & Hc & Hp & Hin)|(_ & -> & [= ->] & ->)].
    + destruct (decide (cid = c)) as [<-|Hc'].
      * rewrite JsMap_get_set_eq. subst inner. rewrite Hc in Hi1 |- *.
        cbn [from_option Datatypes.id] in Hi1 |- *.
        destruct (decide (pk = p)) as [<-|Hp'].
        -- eexists _, _. split; [done|]. rewrite JsMap_get_set_eq.
           split; [done|]. rewrite Hp. apply elem_of_app. by left.
        -- exists (JsMap.set pk (default [] (JsMap.get pk perKey)
                                  ++ [{| folder := f; binding := b |}]) inner1), fs.
           split; [done|]. by rewrite JsMap_get_set_ne, Hi1, decide_False.
      * exists perKey, fs. by rewrite JsMap_get_set_ne, Hm1, decide_False.
    + rewrite JsMap_get_set_eq. eexists _, _. split; [done|].
      rewrite JsMap_get_set_eq. split; [done|].
      apply elem_of_app. right. by apply list_elem_of_singleton.
Qed.

(** The invariant of the loop: what was placed before it, and the bound
    folders among those already visited. *)
Lemma getAllBindings_loop_placed (h : Host) (l : list WorkspaceFolder)
    (m : JsMap.t (JsMap.t (list BoundFolder))) (c p : string) (bf : BoundFolder) :
  placed (fold_left (getAllBindings_body h) l m) c p bf
  ↔ placed m c p bf
    ∨ (folder bf ∈ l
       ∧ binding bf = getConfiguration_get (ScopeUri (uri (folder bf))) h
       ∧ Js.truthy (projectKey (binding bf)) = true
       ∧ c = effectiveConnectionId (binding bf)
       ∧ projectKey (binding bf) = Some p).
Proof.
  revert m. induction l as [|f l IH]; intros m; cbn [fold_left].
  - split; [by left|]. intros [H|[H _]]; [done|]. by apply elem_of_nil in H.
  - rewrite IH, getAllBindings_body_placed. split.
    + intros [[H|(Ht & -> & Hp & ->)]|(Hin & Hb & Ht & Hc & Hp)].
      * by left.
      * right. cbn. split_and!; try done. by left.
      * right. split_and!; try done. by right.
    + intros [H|(Hin & Hb & Ht & Hc & Hp)]; [by left; left|].
      apply elem_of_cons in Hin as [Hf|Hin].
      * left. right. destruct bf as [f' b']. cbn in *. subst f'. subst b'. done.
      * right. done.
Qed.

Lemma placed_empty (c p : string) (bf : BoundFolder) :
  ¬ placed JsMap.empty c p bf.
Proof. by intros (? & ? & ? & _). Qed.

Lemma getAllBindings_placed (h : Host) (c p : string) (bf : BoundFolder) :
  placed (getAllBindings h) c p bf
  ↔ folder bf ∈ default [] (workspaceFolders h)
    ∧ binding bf = getConfiguration_get (ScopeUri (uri (folder bf))) h
    ∧ Js.truthy (projectKey (binding bf)) = true
    ∧ c = effectiveConnectionId (binding bf)
    ∧ projectKey (binding bf) = Some p.
Proof.
  unfold getAllBindings. rewrite getAllBindings_loop_placed.
  split; [|by right]. intros [H|H]; [|done]. by apply placed_empty in H.
Qed.

Lemma truthy_Some (v : option string) :
  Js.truthy v = true ↔ ∃ s, v = Some s ∧ s ≠ "".
Proof.
  destruct v as [s|]; simpl.
  - destruct (decide (s = "")) as [->|Hs].
    + split; [done|]. by intros (s & [= <-] & ?).
    + split; [eauto|done].
  - split; [done|]. by intros (s & ? & _).
Qed.

(** The connection id under which a binding is filed, case by case. *)
Lemma effectiveConnectionId_cases (b : ProjectBinding) :
  effectiveConnectionId b
  = match connectionId b with
    | Some (String c s) => String c s
    | _ =>
        match serverId b with
        | Some (String c s) => String c s
        | _ => "<default>"
        end
    end.
Proof.
  unfold effectiveConnectionId, Js.or_else.
  by destruct (connectionId b) as [[|c s]|], (serverId b) as [[|c' s']|].
Qed.

(** C2. [getAllBindings] includes a folder exactly when it is a workspace
    folder whose stored binding has a non-empty project key; and a bound
    folder is found under a connection id and a project key exactly when it is
    such a folder, carries its stored binding, the connection id is the
    binding's [connectionId], else its [serverId], else ['<default>'], and the
    project key is the binding's. *)
Theorem getAllBindings_spec (h : Host) :
  (∀ f, included (getAllBindings h) f
        ↔ f ∈ default [] (workspaceFolders h)
          ∧ ∃ k, projectKey (getConfiguration_get (ScopeUri (uri f)) h) = Some k
                 ∧ k ≠ "")
  ∧ (∀ c p bf,
       placed (getAllBindings h) c p bf
       ↔ folder bf ∈ default [] (workspaceFolders h)
         ∧ binding bf = getConfiguration_get (ScopeUri (uri (folder bf))) h
         ∧ p ≠ ""
         ∧ projectKey (binding bf) = Some p
         ∧ c = match connectionId (binding bf) with
               | Some (String a s) => String a s
               | _ =>
                   match serverId (binding bf) with
                   | Some (String a s) => String a s
                   | _ => "<default>"
                   end
               end).
Proof.
  split.
  - intros f. unfold included. split.
    + intros (c & p & bf & Hp & <-).
      apply getAllBindings_placed in Hp as (Hin & Hb & Ht & _ & _).
      split; [done|]. rewrite <-Hb. by apply truthy_Some.
    + intros (Hin & Hk). apply truthy_Some in Hk as Ht.
      destruct Hk as (k & Hk & _).
      exists (effectiveConnectionId (getConfiguration_get (ScopeUri (uri f)) h)), k,
        {| folder := f;
           binding := getConfiguration_get (ScopeUri (uri f)) h |}.
      split; [|done]. by apply getAllBindings_placed.
  - intros c p bf. rewrite getAllBindings_placed, effectiveConnectionId_cases.
    split.
    + intros (Hin & Hb & Ht & Hc & Hp). split_and!; try done.
      apply truthy_Some in Ht as (s & Hs & Hne). congruence.
    + intros (Hin & Hb & Hne & Hp & Hc). split_and!; try done.
      apply truthy_Some. eauto.
Qed.

(** ** [saveBinding] *)

Lemma saveBinding_stored (h : Host) (f : WorkspaceFolder) (p : string)
    (c : option string) :
  ∃ h', saveBinding p c (Some f) h = Js.Ok h'
        ∧ workspaceFolders h' = workspaceFolders h
        ∧ workspaceFolderValue (settings h') !! toString (uri f)
          = Some {| projectKey := Some p; serverId := None; connectionId := c |}.
Proof.
  eexists. split; [done|]. split; [done|]. cbn. apply lookup_insert_eq.
Qed.

(** C1. After [saveBinding(p, c, f)] for a folder [f] of the workspace and
    non-empty [p] and [c], [getAllBindings()] has under connection id [c] an
    entry for project key [p] whose list of folders contains [f]. *)
Theorem saveBinding_getAllBindings (h : Host) (f : WorkspaceFolder)
    (p c : string) :
  f ∈ default [] (workspaceFolders h) -> p ≠ "" -> c ≠ "" ->
  ∃ h', saveBinding p (Some c) (Some f) h = Js.Ok h'
        ∧ ∃ perProjectKey folders,
            JsMap.get c (getAllBindings h') = Some perProjectKey
            ∧ JsMap.get p perProjectKey = Some folders
            ∧ ∃ bf, bf ∈ folders ∧ folder bf = f.
Proof.
  intros Hf Hp Hc.
  destruct (saveBinding_stored h f p (Some c)) as (h' & Hs & Hw & Hv).
  exists h'. split; [done|].
  set (b := getConfiguration_get (ScopeUri (uri f)) h').
  assert (projectKey b = Some p ∧ connectionId b = Some c) as [Hbp Hbc].
  { unfold b, getConfiguration_get, config_get. cbn [scope_resource].
    rewrite Hv. done. }
  destruct (proj2 (getAllBindings_placed h' c p {| folder := f; binding := b |}))
    as (perKey & fs & H1 & H2 & H3).
  { cbn [folder binding]. rewrite Hw. split_and!; try done.
    - rewrite Hbp. simpl. by rewrite decide_False.
    - unfold effectiveConnectionId. rewrite Hbc. simpl. by rewrite decide_False. }
  exists perKey, fs. split_and!; try done. eauto.
Qed.

Lemma saveBinding_getAllBindings_witness :
  ∃ h', saveBinding "my-project" (Some "my-connection") (Some folderA) twoFolders
        = Js.Ok h'
        ∧ ∃ perProjectKey folders,
            JsMap.get "my-connection" (getAllBindings h') = Some perProjectKey
            ∧ JsMap.get "my-project" perProjectKey = Some folders
            ∧ ∃ bf, bf ∈ folders ∧ folder bf = folderA.
Proof.
  apply (saveBinding_getAllBindings twoFolders folderA "my-project" "my-connection").
  - simpl. left.
  - done.
  - done.
Defined.

(** ** [deleteBinding], [isBound] and [shouldBeAutoBound] *)

Lemma deleteBinding_settings (arg : WorkspaceFolderItem + BoundFolder) (h : Host) :
  let resource :=
    match arg with inl item => item_uri item | inr bound => uri (folder bound) end in
  workspaceFolders (deleteBinding arg h) = workspaceFolders h
  ∧ inheritedValue (settings (deleteBinding arg h)) = inheritedValue (settings h)
  ∧ workspaceFolderValue (settings (deleteBinding arg h))
    = delete (toString resource) (workspaceFolderValue (settings h)).
Proof. by destruct arg. Qed.

Lemma isBound_truthy (f : WorkspaceFolder) (h : Host) :
  isBound f h = true
  ↔ ∃ k, projectKey (getConfiguration_get (ScopeUri (uri f)) h) = Some k ∧ k ≠ "".
Proof. unfold isBound. apply truthy_Some. Qed.

(** C5, as amended.  After [deleteBinding] for a folder [f] the setting has no
    value at the workspace-folder level for [f], and [isBound(f)] answers
    whether the levels above (default, user, workspace) give a non-empty
    project key: it is false when they give none. *)
Theorem deleteBinding_isBound (h : Host) (f : WorkspaceFolder)
    (arg : WorkspaceFolderItem + BoundFolder) :
  designates arg f ->
  workspaceFolderValue (settings (deleteBinding arg h)) !! toString (uri f) = None
  ∧ isBound f (deleteBinding arg h)
    = Js.truthy (projectKey (inheritedValue (settings h)))
  ∧ (Js.truthy (projectKey (inheritedValue (settings h))) = false ->
     isBound f (deleteBinding arg h) = false).
Proof.
  intros Hd.
  destruct (deleteBinding_settings arg h) as (_ & Hinh & Hv).
  assert (workspaceFolderValue (settings (deleteBinding arg h)) !! toString (uri f)
          = None) as Hnone.
  { rewrite Hv. destruct arg as [item|bound]; simpl in Hd; rewrite Hd.
    - apply lookup_delete_eq.
    - apply lookup_delete_eq. }
  assert (isBound f (deleteBinding arg h)
          = Js.truthy (projectKey (inheritedValue (settings h)))) as Hb.
  { unfold isBound, getConfiguration_get, config_get. cbn [scope_resource].
    by rewrite Hnone, Hinh. }
  split_and!; [done|done|]. intros Hi. by rewrite Hb.
Qed.

Lemma deleteBinding_isBound_witness :
  workspaceFolderValue
    (settings (deleteBinding
                 (inr {| folder := folderA;
                         binding := {| projectKey := Some "project-a";
                                       serverId := None;
                                       connectionId := Some "my-connection" |} |})
                 boundToTwoConnections))
  !! toString (uri folderA) = None
  ∧ isBound folderA
      (deleteBinding
         (inr {| folder := folderA;
                 binding := {| projectKey := Some "project-a"; serverId := None;
                               connectionId := Some "my-connection" |} |})
         boundToTwoConnections)
    = Js.truthy (projectKey (inheritedValue (settings boundToTwoConnections)))
  ∧ (Js.truthy (projectKey (inheritedValue (settings boundToTwoConnections))) = false ->
     isBound folderA
       (deleteBinding
          (inr {| folder := folderA;
                  binding := {| projectKey := Some "project-a"; serverId := None;
                                connectionId := Some "my-connection" |} |})
          boundToTwoConnections) = false).
Proof.
  apply (deleteBinding_isBound boundToTwoConnections folderA
           (inr {| folder := folderA;
                   binding := {| projectKey := Some "project-a"; serverId := None;
                                 connectionId := Some "my-connection" |} |})).
  reflexivity.
Defined.

(** C5 as stated fails: the binding of the folder is deleted at the
    workspace-folder level, and [isBound] still answers [true], from the
    project key set at the workspace level. *)
Lemma deleteBinding_isBound_counterexample :
  workspaceFolderValue
    (settings (deleteBinding (inr boundFolderA) boundAtWorkspaceLevel))
  !! toString (uri folderA) = None
  ∧ isBound folderA (deleteBinding (inr boundFolderA) boundAtWorkspaceLevel) = true.
Proof. split; vm_compute; reflexivity. Qed.

(** C6. [shouldBeAutoBound(f)] is true exactly when the stored binding of [f]
    has no non-empty project key, that is [f] is not bound, and the string
    form of the URI of [f] is not in the list kept in the workspace state
    under ['doNotAskAboutAutoBindingForFolder'], the empty list when there is
    none. *)
Theorem shouldBeAutoBound_spec (this : BindingService) (f : WorkspaceFolder)
    (h : Host) :
  (shouldBeAutoBound this f h = true
   ↔ ¬ (∃ k, projectKey (getConfiguration_get (ScopeUri (uri f)) h) = Some k
             ∧ k ≠ "")
     ∧ toString (uri f)
       ∉ default [] (workspaceState this !! "doNotAskAboutAutoBindingForFolder"))
  ∧ (isBound f h = false
     ↔ ¬ (∃ k, projectKey (getConfiguration_get (ScopeUri (uri f)) h) = Some k
               ∧ k ≠ "")).
Proof.
  assert (isBound f h = false
          ↔ ¬ (∃ k, projectKey (getConfiguration_get (ScopeUri (uri f)) h) = Some k
                    ∧ k ≠ "")) as Hb.
  { rewrite <-isBound_truthy. by destruct (isBound f h). }
  split; [|done].
  unfold shouldBeAutoBound. rewrite andb_true_iff, !negb_true_iff.
  rewrite bool_decide_eq_false, Hb. done.
Qed.

(** ** [deleteBindingsForConnection] *)

Lemma JsMap_get_elem {V} (k : string) (v : V) (m : JsMap.t V) :
  JsMap.get k m = Some v -> (k, v) ∈ m.
Proof.
  induction m as [|[k' v'] m IH]; simpl; [done|].
  destruct (decide (k = k')) as [->|_].
  - intros [= ->]. by left.
  - intros H. right. by apply IH.
Qed.

Lemma JsMap_set_elem {V} (k k' : string) (v v' : V) (m : JsMap.t V) :
  (k', v') ∈ JsMap.set k v m -> (k', v') ∈ m ∨ (k' = k ∧ v' = v).
Proof.
  induction m as [|[k0 v0] m IH]; simpl.
  - intros H. apply list_elem_of_singleton in H as [= -> ->]. by right.
  - destruct (decide (k = k0)) as [->|_]; intros H;
      apply elem_of_cons in H as [H|H].
    + injection H as -> ->. by right.
    + left. by right.
    + left. rewrite H. by left.
    + destruct (IH H) as [?|?]; [left; by right|by right].
Qed.

(** Every entry of the bindings after one iteration of the loop was there
    before, or is the folder of the iteration, filed as it should be. *)
Lemma getAllBindings_body_entries (h : Host)
    (m : JsMap.t (JsMap.t (list BoundFolder))) (f : WorkspaceFolder)
    (c p : string) (bf : BoundFolder) :
  let b := getConfiguration_get (ScopeUri (uri f)) h in
  entry_placed (getAllBindings_body h m f) c p bf ->
  entry_placed m c p bf
  ∨ (Js.truthy (projectKey b) = true
     ∧ c = effectiveConnectionId b
     ∧ projectKey b = Some p
     ∧ bf = {| folder := f; binding := b |}).
Proof.
  intros b. unfold getAllBindings_body. fold b.
  destruct (Js.truthy (projectKey b)) eqn:Ht; [|by left].
  destruct (projectKey b) as [pk|] eqn:Hpk; [|done].
  cbn [from_option Datatypes.id].
  fold (effectiveConnectionId b). set (cid := effectiveConnectionId b).
  set (m1 := if JsMap.has cid m then m else JsMap.set cid JsMap.empty m).
  assert (∀ c' v, (c', v) ∈ m1 -> (c', v) ∈ m ∨ v = JsMap.empty) as Hm1.
  { intros c' v. unfold m1. destruct (JsMap.has cid m); [by left|].
    intros H. apply JsMap_set_elem in H as [?|[_ ->]]; [by left|by right]. }
  set (inner := default JsMap.empty (JsMap.get cid m1)).
  assert (∀ p' v, (p', v) ∈ inner -> ∃ perKey, (cid, perKey) ∈ m ∧ (p', v) ∈ perKey)
    as Hinner.
  { intros p' v. unfold inner.
    destruct (JsMap.get cid m1) as [perKey|] eqn:Hg; cbn [from_option Datatypes.id].
    - apply JsMap_get_elem, Hm1 in Hg as [Hg| ->]; [eauto|].
      intros H. by apply elem_of_nil in H.
    - intros H. by apply elem_of_nil in H. }
  set (inner1 := if JsMap.has pk inner then inner else JsMap.set pk [] inner).
  assert (∀ p' v, (p', v) ∈ inner1 -> (p', v) ∈ inner ∨ v = []) as Hi1.
  { intros p' v. unfold inner1. destruct (JsMap.has pk inner); [by left|].
    intros H. apply JsMap_set_elem in H as [?|[_ ->]]; [by left|by right]. }
  clearbody m1 inner inner1.
  intros (perKey & fs & Hc & Hp & Hin).
  apply JsMap_set_elem in Hc as [Hc|[-> ->]].
  - (* an entry of the outer map that the iteration did not touch *)
    apply Hm1 in Hc as [Hc| ->]; [|by apply elem_of_nil in Hp].
    left. by exists perKey, fs.
  - apply JsMap_set_elem in Hp as [Hp|[-> ->]].
    + (* an entry of the inner map that the iteration did not touch *)
      apply Hi1 in Hp as [Hp| ->]; [|by apply elem_of_nil in Hin].
      apply Hinner in Hp as (perKey & ? & ?). left. by exists perKey, fs.
    + apply elem_of_app in Hin as [Hin|Hin].
      * (* the list before the push *)
        destruct (JsMap.get pk inner1) as [fs|] eqn:Hg;
          cbn [from_option Datatypes.id] in Hin; [|by apply elem_of_nil in Hin].
        apply JsMap_get_elem, Hi1 in Hg as [Hg| ->]; [|by apply elem_of_nil in Hin].
        apply Hinner in Hg as (perKey & ? & ?). left. by exists perKey, fs.
      * apply list_elem_of_singleton in Hin. by right.
Qed.

Lemma getAllBindings_entries (h : Host) (c p : string) (bf : BoundFolder) :
  entry_placed (getAllBindings h) c p bf ->
  folder bf ∈ default [] (workspaceFolders h)
  ∧ binding bf = getConfiguration_get (ScopeUri (uri (folder bf))) h
  ∧ Js.truthy (projectKey (binding bf)) = true
  ∧ c = effectiveConnectionId (binding bf).
Proof.
  unfold getAllBindings.
  assert (∀ l m,
    entry_placed (fold_left (getAllBindings_body h) l m) c p bf ->
    entry_placed m c p bf
    ∨ (folder bf ∈ l
       ∧ binding bf = getConfiguration_get (ScopeUri (uri (folder bf))) h
       ∧ Js.truthy (projectKey (binding bf)) = true
       ∧ c = effectiveConnectionId (binding bf))) as Hloop.
  { induction l as [|f l IH]; intros m; cbn [fold_left]; [by left|].
    intros H. apply IH in H as [H|(? & ? & ? & ?)].
    - apply getAllBindings_body_entries in H as [H|(Ht & -> & Hp & ->)];
        [by left|].
      right. cbn. split_and!; try done. by left.
    - right. split_and!; try done. by right. }
  intros H. apply Hloop in H as [(? & ? & H & _)|H]; [|done].
  by apply elem_of_nil in H.
Qed.

Lemma deleteBinding_all (l : list BoundFolder) (h : Host) :
  let h' := fold_left (λ h f, deleteBinding (inr f) h) l h in
  workspaceFolders h' = workspaceFolders h
  ∧ inheritedValue (settings h') = inheritedValue (settings h)
  ∧ ∀ u, workspaceFolderValue (settings h') !! u
         = if decide (u ∈ deletedKeys l) then None
           else workspaceFolderValue (settings h) !! u.
Proof.
  revert h. induction l as [|bf l IH]; intros h; cbn [fold_left].
  - done.
  - destruct (IH (deleteBinding (inr bf) h)) as (Hw & Hi & Hv).
    destruct (deleteBinding_settings (inr bf) h) as (Hw' & Hi' & Hv').
    cbv zeta. rewrite Hw, Hi. split_and!; try done.
    intros u. rewrite Hv, Hv'. cbn [deletedKeys map].
    destruct (decide (u ∈ deletedKeys l)) as [Hin|Hnin].
    + rewrite decide_True; [done|]. by right.
    + destruct (decide (u = toString (uri (folder bf)))) as [->|Hne].
      * rewrite decide_True by by left. apply lookup_delete_eq.
      * rewrite decide_False.
        -- by apply lookup_delete_ne.
        -- intros [?|?]%elem_of_cons; done.
Qed.

Lemma deleteBinding_nested (ls : list (list BoundFolder)) (h : Host) :
  fold_left (λ h folders, fold_left (λ h f, deleteBinding (inr f) h) folders h) ls h
  = fold_left (λ h f, deleteBinding (inr f) h) (concat ls) h.
Proof.
  revert h. induction ls as [|l ls IH]; intros h; [done|].
  cbn [fold_left concat]. by rewrite fold_left_app, IH.
Qed.

Lemma elem_of_concat {A} (x : A) (ls : list (list A)) :
  x ∈ concat ls ↔ ∃ l, x ∈ l ∧ l ∈ ls.
Proof.
  induction ls as [|l ls IH]; cbn [concat].
  - split; [by intros ?%elem_of_nil|]. by intros (l & _ & ?%elem_of_nil).
  - rewrite elem_of_app, IH. split.
    + intros [H|(l' & H & Hl')]; [exists l; split; [done|by left]|].
      exists l'. split; [done|by right].
    + intros (l' & H & [->|Hl']%elem_of_cons); [by left|]. right. by exists l'.
Qed.

Lemma deletedKeys_elem (u : string) (l : list BoundFolder) :
  u ∈ deletedKeys l ↔ ∃ bf, bf ∈ l ∧ toString (uri (folder bf)) = u.
Proof.
  unfold deletedKeys. rewrite list_elem_of_fmap. split.
  - intros (bf & -> & H). by exists bf.
  - intros (bf & H & <-). by exists bf.
Qed.

Lemma JsMap_values_elem {V} (v : V) (m : JsMap.t V) :
  v ∈ JsMap.values m ↔ ∃ k, (k, v) ∈ m.
Proof.
  unfold JsMap.values. rewrite list_elem_of_fmap. split.
  - intros ([k v'] & -> & H). by exists k.
  - intros (k & H). by exists (k, v).
Qed.

(** The effective value of the setting depends on the resource through the
    string form of its URI only. *)
Lemma getConfiguration_get_ext (f g : WorkspaceFolder) (h : Host) :
  toString (uri f) = toString (uri g) ->
  getConfiguration_get (ScopeUri (uri f)) h
  = getConfiguration_get (ScopeUri (uri g)) h.
Proof.
  intros H. unfold getConfiguration_get, config_get. cbn [scope_resource].
  by rewrite H.
Qed.

Lemma or_else_cases (v : option string) :
  Js.or_else v "<default>"
  = match v with
    | Some (String c s) => String c s
    | _ => "<default>"
    end.
Proof. unfold Js.or_else. by destruct v as [[|c s]|]. Qed.

Lemma deleteBindingsForConnection_state (connection : Connection) (h : Host) :
  workspaceFolders (deleteBindingsForConnection connection h) = workspaceFolders h
  ∧ inheritedValue (settings (deleteBindingsForConnection connection h))
    = inheritedValue (settings h)
  ∧ ∀ f,
      (f ∈ default [] (workspaceFolders h) ->
       boundTo (Js.or_else (id connection) DEFAULT_CONNECTION_ID) f h ->
       workspaceFolderValue (settings (deleteBindingsForConnection connection h))
       !! toString (uri f) = None)
      ∧ (¬ boundTo (Js.or_else (id connection) DEFAULT_CONNECTION_ID) f h ->
         workspaceFolderValue (settings (deleteBindingsForConnection connection h))
         !! toString (uri f)
         = workspaceFolderValue (settings h) !! toString (uri f)).
Proof.
  unfold deleteBindingsForConnection, boundTo.
  set (c := Js.or_else (id connection) DEFAULT_CONNECTION_ID).
  destruct (JsMap.get c (getAllBindings h)) as [perKey|] eqn:Hg.
  - rewrite deleteBinding_nested.
    destruct (deleteBinding_all (concat (JsMap.values perKey)) h)
      as (Hw & Hi & Hv). cbv zeta in Hw, Hi, Hv.
    split_and!; [done|done|]. intros f. rewrite !Hv. split.
    + intros Hf [Ht Hc]. rewrite decide_True; [done|].
      apply truthy_Some in Ht as Hk. destruct Hk as (p & Hp & _).
      destruct (proj2 (getAllBindings_placed h c p
                         {| folder := f;
                            binding := getConfiguration_get (ScopeUri (uri f)) h |}))
        as (perKey' & fs & H1 & H2 & H3); [by cbn [folder binding]|].
      rewrite Hg in H1. injection H1 as <-.
      apply deletedKeys_elem.
      exists {| folder := f;
                binding := getConfiguration_get (ScopeUri (uri f)) h |}.
      split; [|done]. apply elem_of_concat. exists fs. split; [done|].
      apply JsMap_values_elem. exists p. by apply JsMap_get_elem.
    + intros Hnot. rewrite decide_False; [done|]. intros Hin.
      apply deletedKeys_elem in Hin as (bf & Hin & Hu).
      apply elem_of_concat in Hin as (fs & Hin & Hfs).
      apply JsMap_values_elem in Hfs as (p & Hfs).
      destruct (getAllBindings_entries h c p bf) as (_ & Hb & Ht & Hc).
      { exists perKey, fs. split_and!; try done. by apply JsMap_get_elem. }
      apply Hnot. by rewrite <-(getConfiguration_get_ext _ _ h Hu), <-Hb.
  - split_and!; [done|done|]. intros f. split; [|done].
    intros Hf [Ht Hc]. exfalso.
    apply truthy_Some in Ht as Hk. destruct Hk as (p & Hp & _).
    destruct (proj2 (getAllBindings_placed h c p
                       {| folder := f;
                          binding := getConfiguration_get (ScopeUri (uri f)) h |}))
      as (perKey' & fs & H1 & H2 & H3); [by cbn [folder binding]|].
    by rewrite Hg in H1.
Qed.

(** C4, as amended.  After [deleteBindingsForConnection(c)], every workspace
    folder that is bound (its stored binding has a non-empty project key) and
    whose effective connection id (its [connectionId], else its [serverId],
    else ['<default>']) is the id of [c] (['<default>'] when [c] has none) has
    no value left for the setting at the workspace-folder level: the setting
    it reads is then what the levels above give, and the folder is not bound
    when they give no non-empty project key.  For every other folder the
    value at that level and the setting it reads are what they were. *)
Theorem deleteBindingsForConnection_frame (connection : Connection) (h : Host) :
  let connectionOf := λ b : ProjectBinding,
    match connectionId b with
    | Some (String a s) => String a s
    | _ =>
        match serverId b with
        | Some (String a s) => String a s
        | _ => "<default>"
        end
    end in
  let c :=
    match id connection with
    | Some (String a s) => String a s
    | _ => "<default>"
    end in
  (∀ f k, f ∈ default [] (workspaceFolders h) ->
          projectKey (getConfiguration_get (ScopeUri (uri f)) h) = Some k ->
          k ≠ "" ->
          connectionOf (getConfiguration_get (ScopeUri (uri f)) h) = c ->
          workspaceFolderValue
            (settings (deleteBindingsForConnection connection h))
          !! toString (uri f) = None
          ∧ getConfiguration_get (ScopeUri (uri f))
              (deleteBindingsForConnection connection h)
            = inheritedValue (settings h)
          ∧ ((∀ k', projectKey (inheritedValue (settings h)) = Some k' -> k' = "") ->
             isBound f (deleteBindingsForConnection connection h) = false))
  ∧ (∀ f, ¬ (∃ k, projectKey (getConfiguration_get (ScopeUri (uri f)) h) = Some k
                  ∧ k ≠ ""
                  ∧ connectionOf (getConfiguration_get (ScopeUri (uri f)) h) = c)
          -> workspaceFolderValue
               (settings (deleteBindingsForConnection connection h))
             !! toString (uri f)
             = workspaceFolderValue (settings h) !! toString (uri f)
             ∧ getConfiguration_get (ScopeUri (uri f))
                 (deleteBindingsForConnection connection h)
               = getConfiguration_get (ScopeUri (uri f)) h).
Proof.
  intros connectionOf c.
  destruct (deleteBindingsForConnection_state connection h) as (Hw & Hi & Hv).
  assert (∀ b, connectionOf b = effectiveConnectionId b) as Hof.
  { intros b. by rewrite effectiveConnectionId_cases. }
  assert (c = Js.or_else (id connection) DEFAULT_CONNECTION_ID) as Hc0.
  { unfold DEFAULT_CONNECTION_ID. by rewrite or_else_cases. }
  split.
  - intros f k Hf Hk Hne Hc. destruct (Hv f) as [Hdel _].
    assert (workspaceFolderValue
              (settings (deleteBindingsForConnection connection h))
            !! toString (uri f) = None) as Hnone.
    { apply Hdel; [done|]. split.
      - apply truthy_Some. by exists k.
      - by rewrite <-Hof, <-Hc0. }
    assert (getConfiguration_get (ScopeUri (uri f))
              (deleteBindingsForConnection connection h)
            = inheritedValue (settings h)) as Hget.
    { unfold getConfiguration_get, config_get. cbn [scope_resource].
      by rewrite Hnone, Hi. }
    split_and!; [done|done|].
    intros Hinh. unfold isBound. rewrite Hget.
    destruct (Js.truthy (projectKey (inheritedValue (settings h)))) eqn:Ht; [|done].
    apply truthy_Some in Ht as (k' & Hk' & Hne'). by apply Hinh in Hk'.
  - intros f Hnot. destruct (Hv f) as [_ Hkeep].
    assert (workspaceFolderValue
              (settings (deleteBindingsForConnection connection h))
            !! toString (uri f)
            = workspaceFolderValue (settings h) !! toString (uri f)) as Hsame.
    { apply Hkeep. intros [Ht Hc]. apply Hnot.
      apply truthy_Some in Ht as (k & Hk & Hne). exists k.
      split_and!; [done|done|]. by rewrite Hof, Hc0. }
    split; [done|]. unfold getConfiguration_get, config_get.
    cbn [scope_resource]. by rewrite Hsame, Hi.
Qed.

(** C4 as stated fails, in two ways.  After "Bind Manually" the folder [a]
    has a binding with an empty connection id and an empty project key, so
    that its effective connection id is ['<default>']; deleting the bindings
    of the connection without an id leaves this setting in place.  And where
    the workspace level binds every folder, the folder [a], bound to
    ['my-connection'], loses its value at the workspace-folder level when the
    bindings of that connection are deleted, and the setting it reads is still
    a binding to ['my-connection']. *)
Lemma deleteBindingsForConnection_counterexample :
  (id defaultConnection = None
   ∧ getConfiguration_get (ScopeUri (uri folderA)) manuallyBound
     = {| projectKey := Some ""; serverId := None; connectionId := Some "" |}
   ∧ workspaceFolderValue
       (settings (deleteBindingsForConnection defaultConnection manuallyBound))
     !! toString (uri folderA)
     = Some {| projectKey := Some ""; serverId := None; connectionId := Some "" |})
  ∧ (id myConnection = Some "my-connection"
     ∧ getConfiguration_get (ScopeUri (uri folderA)) boundAtWorkspaceLevel
       = {| projectKey := Some "own-project"; serverId := None;
            connectionId := Some "my-connection" |}
     ∧ workspaceFolderValue
         (settings (deleteBindingsForConnection myConnection boundAtWorkspaceLevel))
       !! toString (uri folderA) = None
     ∧ getConfiguration_get (ScopeUri (uri folderA))
         (deleteBindingsForConnection myConnection boundAtWorkspaceLevel)
       = {| projectKey := Some "shared-project"; serverId := None;
            connectionId := Some "my-connection" |}).
Proof. split_and!; vm_compute; reflexivity. Qed.

(** ** [deduplicateQuickPickItems] *)

Lemma filter_all {A} (P : A -> Prop) `{!∀ x, Decision (P x)} (l : list A) :
  (∀ x, P x) -> filter P l = l.
Proof.
  intros HP. induction l as [|x l IH]; [done|].
  rewrite filter_cons, decide_True by done. by rewrite IH.
Qed.

Lemma Arrays_filter_fresh (P : QuickPickItem -> Prop) `{!∀ x, Decision (P x)}
    (a : Arrays.ref) (σ : Arrays.store) (items : list QuickPickItem) :
  σ !! a = Some items ->
  ∃ r, Arrays.filter P a σ = Some (r, <[r := filter P items]> σ)
       ∧ σ !! r = None.
Proof.
  intros Ha. exists (fresh (dom σ)). unfold Arrays.filter. rewrite Ha. split; [done|].
  apply not_elem_of_dom, is_fresh.
Qed.

Lemma deduplicate_forEach_spec (elements : list QuickPickItem)
    (remoteProjects : Arrays.ref) (σ : Arrays.store) (r : list QuickPickItem) :
  σ !! remoteProjects = Some r ->
  ∃ result σ',
    deduplicate_forEach elements remoteProjects σ = Some (result, σ')
    ∧ σ' !! result
      = Some (filter (λ rp, Forall (λ sp, description rp ≠ description sp) elements) r)
    ∧ ∀ a items, σ !! a = Some items -> σ' !! a = Some items.
Proof.
  revert remoteProjects σ r.
  induction elements as [|sp elements IH]; intros remoteProjects σ r Hr.
  - exists remoteProjects, σ. split; [done|]. split; [|done].
    rewrite Hr. f_equal. symmetry. apply filter_all. intros x. constructor.
  - cbn [deduplicate_forEach].
    destruct (Arrays_filter_fresh (λ rp, description rp ≠ description sp)
                remoteProjects σ r Hr) as (r1 & -> & Hfresh).
    cbn [mbind option_bind].
    destruct (IH r1 (<[r1 := filter (λ rp, description rp ≠ description sp) r]> σ)
                (filter (λ rp, description rp ≠ description sp) r))
      as (result & σ' & -> & Hres & Hframe); [apply lookup_insert_eq|].
    exists result, σ'. split; [done|]. split.
    + rewrite Hres, list_filter_filter. f_equal. apply list_filter_iff.
      intros rp. rewrite Forall_cons. tauto.
    + intros a items Ha. apply Hframe. rewrite lookup_insert_ne; [done|].
      intros ->. by rewrite Hfresh in Ha.
Qed.

(** C3. [deduplicateQuickPickItems(S, R)] returns an array holding exactly
    the elements of [R] whose description differs from the description of
    every element of [S], in their order in [R]; the array [S], like every
    array there was before the call, holds what it held. *)
Theorem deduplicateQuickPickItems_spec (suggestedProjects remoteProjects : Arrays.ref)
    (σ : Arrays.store) (s r : list QuickPickItem) :
  σ !! suggestedProjects = Some s ->
  σ !! remoteProjects = Some r ->
  ∃ result σ',
    deduplicateQuickPickItems suggestedProjects remoteProjects σ = Some (result, σ')
    ∧ σ' !! result
      = Some (filter (λ rp, Forall (λ sp, description rp ≠ description sp) s) r)
    ∧ σ' !! suggestedProjects = Some s
    ∧ ∀ a items, σ !! a = Some items -> σ' !! a = Some items.
Proof.
  intros Hs Hr. unfold deduplicateQuickPickItems. rewrite Hs. cbn [mbind option_bind].
  destruct (deduplicate_forEach_spec s remoteProjects σ r Hr)
    as (result & σ' & -> & Hres & Hframe).
  exists result, σ'. split_and!; try done. by apply Hframe.
Qed.

Lemma deduplicateQuickPickItems_witness :
  ∃ result σ',
    deduplicateQuickPickItems 0 1 twoArrays = Some (result, σ')
    ∧ σ' !! result
      = Some (filter (λ rp, Forall (λ sp, description rp ≠ description sp)
                              [item "Alpha" "alpha"])
                [item "Beta" "beta"; item "Alpha" "alpha"; item "Gamma" "gamma"])
    ∧ σ' !! 0 = Some [item "Alpha" "alpha"]
    ∧ ∀ a items, twoArrays !! a = Some items -> σ' !! a = Some items.
Proof.
  apply (deduplicateQuickPickItems_spec 0 1 twoArrays).
  - reflexivity.
  - reflexivity.
Defined.

(** ** [showFolderSelectionQuickPickOrReturnDefaultSelection] *)

(** C8. For a non-empty list of folders: with exactly one folder the function
    returns its name and shows nothing; otherwise it shows one quick-pick over
    the names of all the folders, in order, and returns what the user selects
    there. *)
Theorem showFolderSelection_spec (folders : list WorkspaceFolder) (h : Host) :
  folders ≠ [] ->
  (∀ f, folders = [f] ->
        showFolderSelectionQuickPickOrReturnDefaultSelection folders h
        = (Some (name f), h))
  ∧ (length folders ≠ 1 ->
     showFolderSelectionQuickPickOrReturnDefaultSelection folders h
     = (quickPickAnswer h (map name folders),
        {| workspaceFolders := workspaceFolders h;
           settings := settings h;
           shown := shown h
                    ++ [ShowQuickPick (map name folders) "Select Folder to Bind"
                          "Select the workspace folder you want to create binding for"];
           quickPickAnswer := quickPickAnswer h |})).
Proof.
  intros _. unfold showFolderSelectionQuickPickOrReturnDefaultSelection. split.
  - by intros f ->.
  - intros Hlen. by rewrite decide_False.
Qed.

Lemma showFolderSelection_witness :
  (∀ f, [folderA; folderB] = [f] ->
        showFolderSelectionQuickPickOrReturnDefaultSelection [folderA; folderB] twoFolders
        = (Some (name f), twoFolders))
  ∧ (length [folderA; folderB] ≠ 1 ->
     showFolderSelectionQuickPickOrReturnDefaultSelection [folderA; folderB] twoFolders
     = (quickPickAnswer twoFolders (map name [folderA; folderB]),
        {| workspaceFolders := workspaceFolders twoFolders;
           settings := settings twoFolders;
           shown := shown twoFolders
                    ++ [ShowQuickPick (map name [folderA; folderB])
                          "Select Folder to Bind"
                          "Select the workspace folder you want to create binding for"];
           quickPickAnswer := quickPickAnswer twoFolders |})).
Proof.
  apply (showFolderSelection_spec [folderA; folderB] twoFolders).
  discriminate.
Defined.

(** ** [getRemoteProjectsItems] *)

Lemma forEach_push {K V B} (f : K -> V -> B) (entries : list (K * V))
    (acc : list B) :
  fold_left (λ acc '(k, v), acc ++ [f k v]) entries acc
  = acc ++ map (λ '(k, v), f k v) entries.
Proof.
  revert acc. induction entries as [|[k v] l IH]; intros acc; cbn [fold_left map].
  - by rewrite app_nil_r.
  - by rewrite IH, <-app_assoc.
Qed.

Lemma Array_insert_Permutation {A} (le : A -> A -> Prop) `{!RelDecision le}
    (x : A) (l : list A) :
  Array_insert le x l ≡ₚ x :: l.
Proof.
  induction l as [|y l IH]; cbn [Array_insert]; [done|].
  destruct (decide (le x y)); [done|]. rewrite IH. apply Permutation_swap.
Qed.

Lemma Array_sort_Permutation {A} (le : A -> A -> Prop) `{!RelDecision le}
    (l : list A) :
  Array_sort le l ≡ₚ l.
Proof.
  induction l as [|x l IH]; cbn [Array_sort]; [done|].
  by rewrite Array_insert_Permutation, IH.
Qed.

Lemma Array_insert_Sorted {A} (le : A -> A -> Prop) `{!RelDecision le}
    `{!Total le} (x : A) (l : list A) :
  Sorted le l -> Sorted le (Array_insert le x l).
Proof.
  induction l as [|y l IH]; cbn [Array_insert]; intros Hl.
  - by repeat constructor.
  - destruct (decide (le x y)) as [Hxy|Hxy].
    + constructor; [done|]. by constructor.
    + apply Sorted_inv in Hl as [Hl Hy]. constructor; [by apply IH|].
      assert (le y x) as Hyx by (by destruct (total le x y)).
      destruct l as [|z l]; cbn [Array_insert]; [by constructor|].
      destruct (decide (le x z)); constructor; [done|].
      by apply HdRel_inv in Hy.
Qed.

Lemma Array_sort_Sorted {A} (le : A -> A -> Prop) `{!RelDecision le}
    `{!Total le} (l : list A) :
  Sorted le (Array_sort le l).
Proof.
  induction l as [|x l IH]; cbn [Array_sort]; [constructor|].
  by apply Array_insert_Sorted.
Qed.

(** The sort is stable: the elements that a transitive comparator does not
    tell apart from a given one come out in the order in which they went
    in. *)
Lemma Array_sort_stable {A} (le : A -> A -> Prop) `{!RelDecision le}
    `{!Transitive le} (a : A) (l : list A) :
  filter (λ y, le a y ∧ le y a) (Array_sort le l)
  = filter (λ y, le a y ∧ le y a) l.
Proof.
  assert (∀ x l, filter (λ y, le a y ∧ le y a) (Array_insert le x l)
                 = filter (λ y, le a y ∧ le y a) (x :: l)) as Hinsert.
  { intros x l'. induction l' as [|y l' IH]; cbn [Array_insert]; [done|].
    destruct (decide (le x y)) as [Hxy|Hxy]; [done|].
    rewrite filter_cons, IH, !filter_cons.
    destruct (decide (le a y ∧ le y a)) as [[Hay Hya]|Hy]; [|done].
    destruct (decide (le a x ∧ le x a)) as [[Hax Hxa]|Hx]; [|done].
    destruct Hxy. by transitivity a. }
  induction l as [|x l IH]; cbn [Array_sort]; [done|].
  by rewrite Hinsert, !filter_cons, IH.
Qed.

(** C7. Whatever the connection id, the items that [getRemoteProjectsItems]
    returns are sorted by label under the locale comparison.  When the request
    for the remote projects answers, there is one item for each remote project,
    with the name of the project as label and its key as description; when the
    request throws, the list is empty and an error message has been shown, the
    exception going no further. *)
Theorem getRemoteProjectsItems_spec (localeCompare : string -> string -> Z)
    (this : BindingService) (connectionId : string)
    (workspaceFolder : WorkspaceFolder) (serverType : ServerType)
    (action : option string) (h : Host) :
  (∀ a b, (localeCompare a b <= 0)%Z ∨ (localeCompare b a <= 0)%Z) ->
  let request :=
    getRemoteProjectsForConnection (languageClient this)
      (if decide (connectionId = "") then "<default>" else connectionId) in
  let result :=
    getRemoteProjectsItems localeCompare this connectionId workspaceFolder
      serverType action h in
  Sorted (λ i1 i2, (localeCompare (label i1) (label i2) <= 0)%Z) (fst result)
  ∧ (∀ projects, request = Js.Ok projects ->
       fst result
       ≡ₚ map (λ '(key, name),
                 {| label := name;
                    description := Some key;
                    buttons := [ {| iconPath := "link-external";
                                    tooltip := "View in "
                                               +:+ ServerType_string serverType |} ] |})
            projects)
  ∧ (∀ error, request = Js.Throw error ->
       fst result = []
       ∧ shown (snd result)
         = shown h
           ++ [ShowErrorMessage
                 "Request Failed: Could not get the list of remote projects. Please check the connection."]).
Proof.
  intros Htotal request result.
  assert (Total (label_le localeCompare)) as HT.
  { intros i1 i2. apply Htotal. }
  assert (∃ items h', result = (sort localeCompare items, h')
            ∧ (∀ projects, request = Js.Ok projects ->
                 items = map (λ '(key, name), remoteProjectItem serverType key name)
                           projects)
            ∧ (∀ error, request = Js.Throw error ->
                 items = []
                 ∧ h' = show (ShowErrorMessage
                                ("Request Failed: Could not get the list of remote projects."
                                 +:+ " Please check the connection.")) h))
    as (items & h' & -> & Hok & Herr).
  { unfold result, getRemoteProjectsItems, getRemoteProjects.
    unfold Js.or_else. fold DEFAULT_CONNECTION_ID in request. fold request.
    destruct request as [projects|error].
    - eexists _, _. split; [done|]. split; [|done].
      intros ? [= <-]. by rewrite (forEach_push (remoteProjectItem serverType)).
    - eexists _, _. split; [done|]. split; [done|]. by intros ? _. }
  cbn [fst snd]. split_and!.
  - apply (Array_sort_Sorted (label_le localeCompare)).
  - intros projects Hp. rewrite (Hok _ Hp). unfold sort.
    by rewrite Array_sort_Permutation.
  - intros error He. destruct (Herr _ He) as [-> ->]. done.
Qed.

Lemma getRemoteProjectsItems_witness :
  let request :=
    getRemoteProjectsForConnection (languageClient twoProjects)
      (if decide ("my-connection" = "") then "<default>" else "my-connection") in
  let result :=
    getRemoteProjectsItems compareLengths twoProjects "my-connection" folderA
      SonarQube None twoFolders in
  Sorted (λ i1 i2, (compareLengths (label i1) (label i2) <= 0)%Z) (fst result)
  ∧ (∀ projects, request = Js.Ok projects ->
       fst result
       ≡ₚ map (λ '(key, name),
                 {| label := name;
                    description := Some key;
                    buttons := [ {| iconPath := "link-external";
                                    tooltip := "View in "
                                               +:+ ServerType_string SonarQube |} ] |})
            projects)
  ∧ (∀ error, request = Js.Throw error ->
       fst result = []
       ∧ shown (snd result)
         = shown twoFolders
           ++ [ShowErrorMessage
                 "Request Failed: Could not get the list of remote projects. Please check the connection."]).
Proof.
  apply (getRemoteProjectsItems_spec compareLengths twoProjects "my-connection"
           folderA SonarQube None twoFolders).
  intros a b. unfold compareLengths. lia.
Defined.

(** ** [performIsIgnoredCheck] *)

(** X9. The promise of [performIsIgnoredCheck] rejects in one situation
    only: the file is in a workspace folder and [getExtension('vscode.git')]
    answers [undefined]. *)
Lemma performIsIgnoredCheck_rejects_iff (host : ScmHost) (fileUri : string)
    (scmCheck : string -> string -> Js.result bool)
    (sonarlintOutput : option (list string)) :
  (∃ e, fst (performIsIgnoredCheck host fileUri scmCheck sonarlintOutput) = Js.Throw e)
  ↔ is_Some (getWorkspaceFolder host (Uri_parse host fileUri))
    ∧ getExtension host "vscode.git" = None.
Proof.
  unfold performIsIgnoredCheck.
  destruct (getWorkspaceFolder host (Uri_parse host fileUri)) as [wf|].
  - destruct (getExtension host "vscode.git") as [extension|].
    + destruct (exports extension) as [gitExtension|].
      * destruct (performIsIgnoredCheck_try _ _ _ _ _) as [[b|e] out]; cbn [fst];
          split; [by intros [? ?]|by intros [_ ?]|by intros [? ?]|by intros [_ ?]].
      * cbn [fst]. split; [by intros [? ?]|by intros [_ ?]].
    + cbn [fst]. split; [|by eexists]. intros _. split; [by eexists|done].
  - cbn [fst]. split; [by intros [? ?]|]. by intros [[? ?] _].
Qed.

(** With the git extension installed, the result is [false] when the
    extension is not active, when the file is in no repository and when
    querying git throws or the check rejects, and it is the result of the
    check when the file is in a repository. *)
Lemma performIsIgnoredCheck_with_extension (host : ScmHost) (fileUri : string)
    (scmCheck : string -> string -> Js.result bool)
    (sonarlintOutput : option (list string)) (wf : WorkspaceFolder)
    (extension : Extension) :
  getWorkspaceFolder host (Uri_parse host fileUri) = Some wf ->
  getExtension host "vscode.git" = Some extension ->
  ∃ ignored,
    fst (performIsIgnoredCheck host fileUri scmCheck sonarlintOutput) = Js.Ok ignored
    ∧ (ignored = true ->
       ∃ gitExtension gitApi repo command,
         exports extension = Some gitExtension
         ∧ getAPI gitExtension 1 = Js.Ok gitApi
         ∧ getRepository gitApi (Uri_parse host fileUri) = Js.Ok (Some repo)
         ∧ scmCheck (fsPath (rootUri repo)) command = Js.Ok true).
Proof.
  intros Hwf Hext. unfold performIsIgnoredCheck, performIsIgnoredCheck_try.
  rewrite Hwf, Hext.
  destruct (exports extension) as [gitExtension|]; [|by exists false].
  destruct (getAPI gitExtension 1) as [gitApi|e] eqn:Hapi; [|by exists false].
  destruct (getRepository gitApi (Uri_parse host fileUri)) as [[repo|]|e] eqn:Hrepo;
    [|by exists false..].
  destruct (scmCheck _ _) as [b|e] eqn:Hcheck; [|by exists false].
  exists b. split; [done|]. intros ->. eauto 10.
Qed.

(** C10 fails on the code.  For a file of a workspace folder, in an editor
    where the git extension is not installed or is disabled,
    [performIsIgnoredCheck] rejects with a [TypeError] where the claim has it
    resolve to [false]. *)
Theorem performIsIgnoredCheck_git_missing :
  performIsIgnoredCheck withoutGit "file:///work/a/index.js" (λ _ _, Js.Ok true)
    (Some [])
  = (Js.Throw "TypeError", Some []).
Proof. reflexivity. Qed.

Example performIsIgnoredCheck_in_repository :
  performIsIgnoredCheck withGit "file:///work/a/index.js" (λ _ _, Js.Ok true)
    (Some [])
  = (Js.Ok true, Some []).
Proof. reflexivity. Qed.

(** * Further properties *)

(** ** The maps that [getAllBindings] builds *)

Lemma JsMap_set_keys {V} (k : string) (v : V) (m : JsMap.t V) :
  map fst (JsMap.set k v m)
  = if JsMap.has k m then map fst m else map fst m ++ [k].
Proof.
  unfold JsMap.has. induction m as [|[k' v'] m IH]; cbn [JsMap.set JsMap.get map fst app].
  - done.
  - destruct (decide (k = k')) as [->|Hne]; [done|].
    cbn [map fst]. rewrite IH. by destruct (JsMap.get k m).
Qed.

Lemma JsMap_get_None_keys {V} (k : string) (m : JsMap.t V) :
  JsMap.get k m = None ↔ k ∉ map fst m.
Proof.
  induction m as [|[k' v'] m IH]; cbn [JsMap.get map fst].
  - split; [intros _; apply not_elem_of_nil|done].
  - rewrite not_elem_of_cons. destruct (decide (k = k')) as [->|Hne].
    + split; [done|]. by intros [? _].
    + rewrite IH. tauto.
Qed.

Lemma JsMap_set_NoDup {V} (k : string) (v : V) (m : JsMap.t V) :
  NoDup (map fst m) -> NoDup (map fst (JsMap.set k v m)).
Proof.
  intros Hm. rewrite JsMap_set_keys. unfold JsMap.has.
  destruct (JsMap.get k m) eqn:Hg; [done|].
  apply NoDup_app. split_and!; [done| |apply NoDup_singleton].
  intros x Hx ->%list_elem_of_singleton. by apply JsMap_get_None_keys in Hg.
Qed.

Lemma JsMap_set_elem_NoDup {V} (k k' : string) (v v' : V) (m : JsMap.t V) :
  NoDup (map fst m) ->
  (k', v') ∈ JsMap.set k v m ->
  ((k', v') ∈ m ∧ k' ≠ k) ∨ (k' = k ∧ v' = v).
Proof.
  induction m as [|[k0 v0] m IH]; cbn [JsMap.set map fst]; intros Hnd.
  - intros [= -> ->]%list_elem_of_singleton. by right.
  - apply NoDup_cons in Hnd as [Hk0 Hnd].
    destruct (decide (k = k0)) as [->|Hne]; intros [H|H]%elem_of_cons.
    + injection H as -> ->. by right.
    + left. split; [by right|]. intros ->. apply Hk0.
      apply list_elem_of_fmap. by exists (k0, v').
    + injection H as -> ->. left. split; [by left|done].
    + destruct (IH Hnd H) as [[? ?]|?]; [left; split; [by right|done]|by right].
Qed.

Lemma JsMap_set_not_nil {V} (k : string) (v : V) (m : JsMap.t V) :
  JsMap.set k v m ≠ [].
Proof. destruct m as [|[k' v'] m]; simpl; [done|]. by destruct (decide (k = k')). Qed.

Lemma well_formed_empty : well_formed JsMap.empty.
Proof.
  split; [apply NoDup_nil_2|]. intros c perKey H. by apply elem_of_nil in H.
Qed.

Lemma getAllBindings_body_well_formed (h : Host)
    (m : JsMap.t (JsMap.t (list BoundFolder))) (f : WorkspaceFolder) :
  well_formed m -> well_formed (getAllBindings_body h m f).
Proof.
  intros [Hnd Hentries]. unfold getAllBindings_body.
  destruct (Js.truthy _); [|done].
  set (b := getConfiguration_get (ScopeUri (uri f)) h).
  set (pk := default "" (projectKey b)).
  set (cid := Js.or_else (connectionId b) _).
  set (m1 := if JsMap.has cid m then m else JsMap.set cid JsMap.empty m).
  assert (NoDup (map fst m1)) as Hnd1.
  { unfold m1. destruct (JsMap.has cid m); [done|]. by apply JsMap_set_NoDup. }
  assert (∀ c v, (c, v) ∈ m1 -> (c, v) ∈ m ∨ (c = cid ∧ v = JsMap.empty)) as Hm1.
  { intros c v. unfold m1. destruct (JsMap.has cid m); [by left|].
    apply JsMap_set_elem. }
  set (inner := default JsMap.empty (JsMap.get cid m1)).
  assert (NoDup (map fst inner)
          ∧ ∀ p fs, (p, fs) ∈ inner -> fs ≠ []) as [Hndi Hinner].
  { unfold inner. destruct (JsMap.get cid m1) as [perKey|] eqn:Hg;
      cbn [from_option Datatypes.id].
    - apply JsMap_get_elem, Hm1 in Hg as [Hg|[_ ->]].
      + destruct (Hentries _ _ Hg) as (_ & ? & ?). done.
      + split; [apply NoDup_nil_2|]. by intros ? ? ?%elem_of_nil.
    - split; [apply NoDup_nil_2|]. by intros ? ? ?%elem_of_nil. }
  set (inner1 := if JsMap.has pk inner then inner else JsMap.set pk [] inner).
  assert (NoDup (map fst inner1)) as Hndi1.
  { unfold inner1. destruct (JsMap.has pk inner); [done|]. by apply JsMap_set_NoDup. }
  assert (∀ p fs, (p, fs) ∈ inner1 -> p ≠ pk -> fs ≠ []) as Hinner1.
  { intros p fs. unfold inner1. destruct (JsMap.has pk inner); [by eauto|].
    intros [?|[-> _]]%JsMap_set_elem; [by eauto|done]. }
  clearbody m1 inner inner1. split; [by apply JsMap_set_NoDup|].
  intros c perKey Hin.
  apply (JsMap_set_elem_NoDup _ _ _ _ _ Hnd1) in Hin as [[Hin Hne]|[-> ->]].
  - apply Hm1 in Hin as [Hin|[-> _]]; [by apply (Hentries c)|done].
  - split_and!; [apply JsMap_set_not_nil|by apply JsMap_set_NoDup|].
    intros p fs Hin.
    apply (JsMap_set_elem_NoDup _ _ _ _ _ Hndi1) in Hin as [[Hin Hne]|[-> ->]].
    + by apply (Hinner1 p).
    + by destruct (default [] (JsMap.get pk inner1)).
Qed.

Lemma getAllBindings_loop_well_formed (h : Host) (l : list WorkspaceFolder)
    (m : JsMap.t (JsMap.t (list BoundFolder))) :
  well_formed m -> well_formed (fold_left (getAllBindings_body h) l m).
Proof.
  revert m. induction l as [|f l IH]; intros m Hm; cbn [fold_left]; [done|].
  by apply IH, getAllBindings_body_well_formed.
Qed.

(** X1. In the map that [getAllBindings] returns no connection id and, under
    a connection id, no project key occurs twice; every connection id has at
    least one project key and every project key at least one folder. *)
Theorem getAllBindings_well_formed (h : Host) : well_formed (getAllBindings h).
Proof.
  unfold getAllBindings.
  generalize (default [] (workspaceFolders h)) as l.
  assert (∀ l m, well_formed m -> well_formed (fold_left (getAllBindings_body h) l m))
    as Hloop.
  { induction l as [|f l IH]; intros m Hm; cbn [fold_left]; [done|].
    by apply IH, getAllBindings_body_well_formed. }
  intros l. apply Hloop. split; [apply NoDup_nil_2|].
  intros c perKey H. by apply elem_of_nil in H.
Qed.

Lemma JsMap_get_ensure {V} (k : string) (d : V) (m : JsMap.t V) :
  JsMap.get k (if JsMap.has k m then m else JsMap.set k d m)
  = Some (default d (JsMap.get k m)).
Proof.
  unfold JsMap.has. destruct (JsMap.get k m) eqn:Hg; [done|].
  apply JsMap_get_set_eq.
Qed.

Lemma flatten_set_None {V A} (W : V -> list A) (k : string) (v : V) (m : JsMap.t V) :
  JsMap.get k m = None ->
  concat (map W (JsMap.values (JsMap.set k v m)))
  = concat (map W (JsMap.values m)) ++ W v.
Proof.
  unfold JsMap.values.
  induction m as [|[k' v'] m IH]; cbn [JsMap.get JsMap.set map snd concat]; intros Hg.
  - by rewrite app_nil_r.
  - destruct (decide (k = k')); [done|].
    cbn [map snd concat]. by rewrite IH, app_assoc.
Qed.

Lemma flatten_set_Some {V A} (W : V -> list A) (k : string) (v old : V)
    (m : JsMap.t V) (x : list A) :
  JsMap.get k m = Some old ->
  W v ≡ₚ W old ++ x ->
  concat (map W (JsMap.values (JsMap.set k v m)))
  ≡ₚ concat (map W (JsMap.values m)) ++ x.
Proof.
  unfold JsMap.values. intros Hg Hv. revert Hg.
  induction m as [|[k' v'] m IH]; cbn [JsMap.get JsMap.set map snd concat]; [done|].
  destruct (decide (k = k')) as [->|Hne]; cbn [map snd concat].
  - intros [= ->]. rewrite Hv, <-!app_assoc. f_equiv. apply Permutation_app_comm.
  - intros Hg. by rewrite (IH Hg), app_assoc.
Qed.

Lemma flatten_ensure {V A} (W : V -> list A) (k : string) (d : V) (m : JsMap.t V) :
  W d = [] ->
  concat (map W (JsMap.values (if JsMap.has k m then m else JsMap.set k d m)))
  = concat (map W (JsMap.values m)).
Proof.
  intros Hd. unfold JsMap.has. destruct (JsMap.get k m) eqn:Hg; [done|].
  by rewrite flatten_set_None, Hd, app_nil_r.
Qed.

Lemma getAllBindings_body_listed (h : Host)
    (m : JsMap.t (JsMap.t (list BoundFolder))) (f : WorkspaceFolder) :
  listedFolders (getAllBindings_body h m f)
  ≡ₚ listedFolders m
     ++ (if isBound f h
         then [ {| folder := f;
                   binding := getConfiguration_get (ScopeUri (uri f)) h |} ]
         else []).
Proof.
  unfold getAllBindings_body, isBound.
  destruct (Js.truthy _); [|by rewrite app_nil_r].
  set (b := getConfiguration_get (ScopeUri (uri f)) h).
  set (pk := default "" (projectKey b)).
  set (cid := Js.or_else (connectionId b) _).
  set (W := λ perKey : JsMap.t (list BoundFolder), concat (JsMap.values perKey)).
  unfold listedFolders. fold W.
  rewrite <-(flatten_ensure W cid JsMap.empty m) by done.
  set (m1 := if JsMap.has cid m then m else JsMap.set cid JsMap.empty m).
  pose proof (JsMap_get_ensure cid JsMap.empty m) as Hg1. fold m1 in Hg1.
  rewrite Hg1. cbn [from_option Datatypes.id].
  set (inner := default JsMap.empty (JsMap.get cid m)) in *.
  set (inner1 := if JsMap.has pk inner then inner else JsMap.set pk [] inner).
  pose proof (JsMap_get_ensure pk [] inner) as Hg2. fold inner1 in Hg2.
  rewrite Hg2. cbn [from_option Datatypes.id].
  apply (flatten_set_Some W _ _ _ _ _ Hg1).
  assert (∀ x, W x = concat (map Datatypes.id (JsMap.values x))) as HW.
  { intros x. unfold W. by rewrite map_id. }
  rewrite !HW, <-(flatten_ensure Datatypes.id pk [] inner) by done. fold inner1.
  by apply (flatten_set_Some Datatypes.id _ _ _ _ _ Hg2).
Qed.

(** X2. The bound folders that [getAllBindings] lists are, up to their order,
    the workspace folders whose stored binding has a non-empty project key,
    each with its stored binding and as many times as the workspace has it. *)
Theorem getAllBindings_listed (h : Host) :
  listedFolders (getAllBindings h) ≡ₚ boundWorkspaceFolders h.
Proof.
  unfold getAllBindings, boundWorkspaceFolders.
  generalize (default [] (workspaceFolders h)) as l.
  assert (∀ l m,
    listedFolders (fold_left (getAllBindings_body h) l m)
    ≡ₚ listedFolders m
       ++ map (λ f, {| folder := f;
                       binding := getConfiguration_get (ScopeUri (uri f)) h |})
            (List.filter (λ f, isBound f h) l)) as Hloop.
  { induction l as [|f l IH]; intros m; cbn [fold_left List.filter].
    - by rewrite app_nil_r.
    - rewrite IH, getAllBindings_body_listed, <-app_assoc.
      by destruct (isBound f h). }
  intros l. by rewrite Hloop.
Qed.

(** ** [saveBinding] and [deleteBinding] together *)

(** [getAllBindings] reads the workspace folders and the settings only. *)
Lemma getAllBindings_ext (h h' : Host) :
  workspaceFolders h = workspaceFolders h' ->
  (∀ f, f ∈ default [] (workspaceFolders h) ->
        getConfiguration_get (ScopeUri (uri f)) h
        = getConfiguration_get (ScopeUri (uri f)) h'
        ∨ (isBound f h = false ∧ isBound f h' = false)) ->
  getAllBindings h = getAllBindings h'.
Proof.
  intros Hw Hget. unfold getAllBindings. rewrite <-Hw.
  generalize (@JsMap.empty (JsMap.t (list BoundFolder))) as m.
  induction (default [] (workspaceFolders h)) as [|f l IH]; intros m; [done|].
  cbn [fold_left].
  assert (getAllBindings_body h m f = getAllBindings_body h' m f) as ->.
  { unfold getAllBindings_body.
    destruct (Hget f) as [->|[H1 H2]]; [by left|done|].
    unfold isBound in H1, H2. by rewrite H1, H2. }
  apply IH. intros g Hg. apply Hget. by right.
Qed.

(** X3. Deleting the binding of a folder after saving one for it leaves the
    settings as deleting it at once would, and as they were when the folder
    had no value at the workspace-folder level: the bindings listed are then
    those listed before. *)
Theorem saveBinding_deleteBinding (h : Host) (f : WorkspaceFolder) (p : string)
    (c : option string) (b : ProjectBinding) :
  workspaceFolderValue (settings h) !! toString (uri f) = None ->
  ∃ h1, saveBinding p c (Some f) h = Js.Ok h1
        ∧ settings (deleteBinding (inr {| folder := f; binding := b |}) h1)
          = settings h
        ∧ getAllBindings (deleteBinding (inr {| folder := f; binding := b |}) h1)
          = getAllBindings h.
Proof.
  intros Hnone. eexists. split; [done|].
  assert (settings (deleteBinding (inr {| folder := f; binding := b |})
                      (getConfiguration_update (ScopeFolder f)
                         (Some {| projectKey := Some p; serverId := None;
                                  connectionId := c |}) None
                         (show (ShowInformationMessage
                                  ("Workspace folder '" +:+ name f +:+ "/'" +:+ newline
                                   +:+ "                      has been bound with project '"
                                   +:+ p +:+ "'")) h)))
          = settings h) as Hs.
  { destruct h as [wf [dv gv wv fv] sh qa]. cbn in Hnone |- *.
    f_equal. rewrite delete_insert_eq. by apply delete_id. }
  split; [done|].
  apply getAllBindings_ext; [done|]. intros g _. left.
  unfold getConfiguration_get. by rewrite Hs.
Qed.

Lemma saveBinding_deleteBinding_witness :
  ∃ h1, saveBinding "my-project" (Some "my-connection") (Some folderA) twoFolders
        = Js.Ok h1
        ∧ settings (deleteBinding (inr {| folder := folderA; binding := emptyBinding |}) h1)
          = settings twoFolders
        ∧ getAllBindings
            (deleteBinding (inr {| folder := folderA; binding := emptyBinding |}) h1)
          = getAllBindings twoFolders.
Proof.
  apply (saveBinding_deleteBinding twoFolders folderA "my-project"
           (Some "my-connection") emptyBinding).
  reflexivity.
Defined.

(** X4. [saveBinding] for a folder [f] shows one information message, makes
    [f] bound exactly when the project key is non-empty, in which case [f] is
    no longer a candidate for auto-binding, and leaves the workspace folders
    and the stored binding of every folder with another URI as they were. *)
Theorem saveBinding_effect (h : Host) (f : WorkspaceFolder) (p : string)
    (c : option string) :
  ∃ h1, saveBinding p c (Some f) h = Js.Ok h1
        ∧ (∃ message, shown h1 = shown h ++ [ShowInformationMessage message])
        ∧ isBound f h1 = (if decide (p = "") then false else true)
        ∧ (∀ this, p ≠ "" -> shouldBeAutoBound this f h1 = false)
        ∧ workspaceFolders h1 = workspaceFolders h
        ∧ ∀ g, toString (uri g) ≠ toString (uri f) ->
               getConfiguration_get (ScopeUri (uri g)) h1
               = getConfiguration_get (ScopeUri (uri g)) h.
Proof.
  eexists. split; [done|].
  assert (isBound f (getConfiguration_update (ScopeFolder f)
                       (Some {| projectKey := Some p; serverId := None;
                                connectionId := c |}) None
                       (show (ShowInformationMessage
                                ("Workspace folder '" +:+ name f +:+ "/'" +:+ newline
                                 +:+ "                      has been bound with project '"
                                 +:+ p +:+ "'")) h))
          = (if decide (p = "") then false else true)) as Hb.
  { unfold isBound, getConfiguration_get, config_get. cbn.
    by rewrite lookup_insert_eq. }
  split_and!.
  - by eexists.
  - done.
  - intros this Hp. unfold shouldBeAutoBound. rewrite Hb.
    by rewrite decide_False.
  - done.
  - intros g Hg. unfold getConfiguration_get, config_get. cbn.
    by rewrite lookup_insert_ne.
Qed.

(** ** [bindManuallyAction] *)

Lemma bindManuallyAction_settings (f : WorkspaceFolder) (h : Host) :
  workspaceFolders (bindManuallyAction f h) = workspaceFolders h
  ∧ settings (bindManuallyAction f h)
    = match projectKey (getConfiguration_get (ScopeFolder f) h) with
      | None =>
          config_update (uri f)
            (Some {| projectKey := Some ""; serverId := None;
                     connectionId := Some "" |})
            None (settings h)
      | Some _ => settings h
      end.
Proof.
  unfold bindManuallyAction.
  by destruct (projectKey (getConfiguration_get (ScopeFolder f) h)).
Qed.

(** X5. "Bind Manually" on a folder never replaces a project key that the
    folder already has, leaves every folder as bound or unbound as it was and
    the listed bindings unchanged, and doing it a second time changes no
    setting.  It always ends by opening the folder settings file. *)
Theorem bindManuallyAction_spec (f : WorkspaceFolder) (h : Host) :
  (∀ k, projectKey (getConfiguration_get (ScopeFolder f) h) = Some k ->
        settings (bindManuallyAction f h) = settings h)
  ∧ (∀ g, isBound g (bindManuallyAction f h) = isBound g h)
  ∧ getAllBindings (bindManuallyAction f h) = getAllBindings h
  ∧ settings (bindManuallyAction f (bindManuallyAction f h))
    = settings (bindManuallyAction f h)
  ∧ (∃ before,
       shown (bindManuallyAction f h)
       = before ++ [ExecuteCommand "workbench.action.openFolderSettingsFile"]).
Proof.
  destruct (bindManuallyAction_settings f h) as [Hw Hs].
  assert (∀ g, getConfiguration_get (ScopeUri (uri g)) (bindManuallyAction f h)
               = getConfiguration_get (ScopeUri (uri g)) h
               ∨ (isBound g (bindManuallyAction f h) = false ∧ isBound g h = false))
    as Hget.
  { intros g. unfold isBound, getConfiguration_get in *. rewrite Hs.
    cbn [scope_resource] in *.
    destruct (projectKey (config_get (settings h) (uri f))) as [k|] eqn:Hk;
      [by left|].
    destruct (decide (toString (uri g) = toString (uri f))) as [Heq|Hne].
    - right. split.
      + unfold config_get. cbn. by rewrite Heq, lookup_insert_eq.
      + assert (config_get (settings h) (uri g) = config_get (settings h) (uri f))
          as -> by (unfold config_get; by rewrite Heq).
        by rewrite Hk.
    - left. unfold config_get. cbn. by rewrite lookup_insert_ne. }
  split_and!.
  - intros k Hk. by rewrite Hs, Hk.
  - intros g. destruct (Hget g) as [Hg|[-> ->]]; [|done].
    unfold isBound. by rewrite Hg.
  - apply getAllBindings_ext; [done|]. intros g _.
    destruct (Hget g) as [Hg|[? ?]]; [by left|by right].
  - destruct (bindManuallyAction_settings f (bindManuallyAction f h)) as [_ ->].
    assert (is_Some (projectKey (getConfiguration_get (ScopeFolder f)
                                   (bindManuallyAction f h)))) as [k ->]; [|done].
    unfold getConfiguration_get. rewrite Hs. unfold getConfiguration_get.
    cbn [scope_resource].
    destruct (projectKey (config_get (settings h) (uri f))) as [k|] eqn:Hk.
    + rewrite Hk. by eexists.
    + unfold config_get. cbn. rewrite lookup_insert_eq. by eexists.
  - unfold bindManuallyAction, show. cbn [shown]. by eexists.
Qed.

(** ** [deleteBindingsForConnection] and [getAllBindings] together *)

(** X6. When the levels above the workspace folders give no non-empty project
    key, [getAllBindings] after [deleteBindingsForConnection(c)] has no entry
    for the connection id of [c], and under every other connection id it
    lists what it listed before. *)
Theorem deleteBindingsForConnection_getAllBindings (connection : Connection)
    (h : Host) :
  (∀ k, projectKey (inheritedValue (settings h)) = Some k -> k = "") ->
  JsMap.get
    match id connection with
    | Some (String a s) => String a s
    | _ => "<default>"
    end
    (getAllBindings (deleteBindingsForConnection connection h)) = None
  ∧ ∀ c p bf,
      c ≠ match id connection with
          | Some (String a s) => String a s
          | _ => "<default>"
          end ->
      placed (getAllBindings (deleteBindingsForConnection connection h)) c p bf
      ↔ placed (getAllBindings h) c p bf.
Proof.
  intros Hempty. rewrite <-(or_else_cases (id connection)).
  assert (Js.truthy (projectKey (inheritedValue (settings h))) = false) as Hinh.
  { destruct (Js.truthy (projectKey (inheritedValue (settings h)))) eqn:Ht; [|done].
    apply truthy_Some in Ht as (k & Hk & Hne). by apply Hempty in Hk. }
  fold DEFAULT_CONNECTION_ID.
  set (c0 := Js.or_else (id connection) DEFAULT_CONNECTION_ID).
  set (h' := deleteBindingsForConnection connection h).
  destruct (deleteBindingsForConnection_state connection h) as (Hw & Hi & Hv).
  fold h' c0 in Hw, Hi, Hv.
  (* the stored binding of a workspace folder after the deletion *)
  assert (∀ f, f ∈ default [] (workspaceFolders h) ->
            (boundTo c0 f h ∧ isBound f h' = false)
            ∨ (¬ boundTo c0 f h
               ∧ getConfiguration_get (ScopeUri (uri f)) h'
                 = getConfiguration_get (ScopeUri (uri f)) h)) as Hafter.
  { intros f Hf. destruct (Hv f) as [Hdel Hkeep].
    destruct (Js.truthy (projectKey (getConfiguration_get (ScopeUri (uri f)) h)))
      eqn:Ht;
      [destruct (decide (effectiveConnectionId
                           (getConfiguration_get (ScopeUri (uri f)) h) = c0))
         as [Hc|Hc]|].
    - left. split; [done|].
      unfold isBound, getConfiguration_get, config_get. cbn [scope_resource].
      rewrite (Hdel Hf (conj Ht Hc)), Hi. done.
    - right. assert (¬ boundTo c0 f h) as Hn by (by intros [_ ?]).
      split; [done|]. unfold getConfiguration_get, config_get.
      cbn [scope_resource]. by rewrite (Hkeep Hn), Hi.
    - right. assert (¬ boundTo c0 f h) as Hn.
      { intros [Ht' _]. by rewrite Ht in Ht'. }
      split; [done|]. unfold getConfiguration_get, config_get.
      cbn [scope_resource]. by rewrite (Hkeep Hn), Hi. }
  assert (∀ c p bf, placed (getAllBindings h') c p bf ->
            c ≠ c0 ∧ placed (getAllBindings h) c p bf) as Hsound.
  { intros c p bf Hp. apply getAllBindings_placed in Hp as (Hf & Hb & Ht & Hc & Hk).
    rewrite Hw in Hf. destruct (Hafter _ Hf) as [[_ Hnb]|[Hn Hsame]].
    - unfold isBound in Hnb. rewrite <-Hb, Ht in Hnb. done.
    - rewrite Hsame in Hb. split.
      + intros ->. apply Hn. unfold boundTo. by rewrite <-Hb.
      + by apply getAllBindings_placed. }
  split.
  - destruct (JsMap.get c0 (getAllBindings h')) as [perKey|] eqn:Hg; [|done].
    exfalso.
    destruct (getAllBindings_loop_well_formed h' (default [] (workspaceFolders h'))
                JsMap.empty well_formed_empty) as [_ Hwf].
    fold (getAllBindings h') in Hwf.
    destruct (Hwf c0 perKey (JsMap_get_elem _ _ _ Hg)) as (Hne & Hnd & Hfs).
    destruct perKey as [|[p fs] perKey]; [done|].
    assert (JsMap.get p ((p, fs) :: perKey) = Some fs) as Hgp.
    { cbn. by rewrite decide_True. }
    destruct fs as [|bf fs]; [by apply (Hfs p []); [left|]|].
    destruct (Hsound c0 p bf) as [Hc _]; [|done].
    exists ((p, bf :: fs) :: perKey), (bf :: fs). split_and!; [done|done|by left].
  - intros c p bf Hc. split; [by intros [_ ?]%Hsound|].
    intros Hp. apply getAllBindings_placed in Hp as (Hf & Hb & Ht & Hc' & Hk).
    apply getAllBindings_placed. rewrite Hw.
    destruct (Hafter _ Hf) as [[[_ Hb'] _]|[_ Hsame]].
    + rewrite <-Hb, <-Hc' in Hb'. done.
    + by rewrite Hsame.
Qed.

Lemma deleteBindingsForConnection_getAllBindings_witness :
  JsMap.get
    match id myConnection with
    | Some (String a s) => String a s
    | _ => "<default>"
    end
    (getAllBindings (deleteBindingsForConnection myConnection boundToTwoConnections))
  = None
  ∧ ∀ c p bf,
      c ≠ match id myConnection with
          | Some (String a s) => String a s
          | _ => "<default>"
          end ->
      placed
        (getAllBindings (deleteBindingsForConnection myConnection boundToTwoConnections))
        c p bf
      ↔ placed (getAllBindings boundToTwoConnections) c p bf.
Proof.
  apply (deleteBindingsForConnection_getAllBindings myConnection
           boundToTwoConnections).
  intros k Hk. vm_compute in Hk. discriminate Hk.
Defined.

(** ** [deleteBindingWithConfirmation] and [createOrEditBinding] *)

(** X7. [deleteBindingWithConfirmation] shows one warning with the single
    button ['Delete'].  Unless that button is the answer, no setting changes;
    when it is, the item's folder has no value left at the workspace-folder
    level and the value of every other folder is what it was. *)
Theorem deleteBindingWithConfirmation_spec (binding : WorkspaceFolderItem)
    (serverType : ServerType) (confirm : option string) (h : Host) :
  (∃ message,
     shown (deleteBindingWithConfirmation binding serverType confirm h)
     = shown h ++ [ShowWarningMessage message ["Delete"]])
  ∧ (confirm ≠ Some "Delete" ->
     settings (deleteBindingWithConfirmation binding serverType confirm h)
     = settings h)
  ∧ (confirm = Some "Delete" ->
     workspaceFolderValue
       (settings (deleteBindingWithConfirmation binding serverType confirm h))
     = delete (toString (item_uri binding)) (workspaceFolderValue (settings h))
     ∧ inheritedValue
         (settings (deleteBindingWithConfirmation binding serverType confirm h))
       = inheritedValue (settings h)).
Proof.
  unfold deleteBindingWithConfirmation.
  destruct (decide (confirm ≠ Some "Delete")) as [Hne|Heq].
  - split_and!; [by eexists|done|done].
  - split_and!; [by eexists|done|]. intros _. done.
Qed.

Lemma find_by_name_Some (selected : option string) (l : list WorkspaceFolder)
    (f : WorkspaceFolder) :
  find_by_name selected l = Some f ->
  ∃ before after,
    l = before ++ f :: after
    ∧ selected = Some (name f)
    ∧ ∀ g, g ∈ before -> name g ≠ name f.
Proof.
  unfold find_by_name. induction l as [|g l IH]; cbn [List.find]; [done|].
  destruct (bool_decide (Some (name g) = selected)) eqn:Hg.
  - intros [= ->]. apply bool_decide_eq_true in Hg.
    exists [], l. split_and!; [done|done|]. by intros ? ?%elem_of_nil.
  - intros H. destruct (IH H) as (before & after & -> & Hs & Hb).
    exists (g :: before), after. split_and!; [done|done|].
    intros g' [->|Hin]%elem_of_cons; [|by apply Hb].
    apply bool_decide_eq_false in Hg. intros Hn. apply Hg. by rewrite Hn.
Qed.

(** X8. [createOrEditBinding] reaches the choice of a remote project exactly
    when the workspace has folders.  Without them it warns, and opens a
    folder if asked to.  With them, a folder given by the caller is passed on
    with its name and nothing is shown; otherwise the folder passed on, when
    there is one, is the first workspace folder that has the selected name.
    The server type passed on is the one given, else SonarQube exactly for the
    context value ['sonarqubeConnection']. *)
Theorem createOrEditBinding_spec (connectionId contextValue : string)
    (workspaceFolder : option WorkspaceFolder) (serverType : option ServerType)
    (action : option string) (h : Host) :
  let result :=
    createOrEditBinding connectionId contextValue workspaceFolder serverType
      action h in
  (workspaceFolders h = None ->
     fst result = None
     ∧ shown (snd result)
       = shown h
         ++ ShowWarningMessage
              "No folder to bind, please open a workspace or folder first"
              ["Open Folder"]
            :: (if decide (action = Some "Open Folder")
                then [ExecuteCommand "vscode.openFolder"] else []))
  ∧ (∀ folders, workspaceFolders h = Some folders ->
       ∃ call,
         fst result = Some call
         ∧ pick_connectionId call = connectionId
         ∧ pick_serverType call
           = default (if decide (contextValue = "sonarqubeConnection")
                      then SonarQube else SonarCloud) serverType
         ∧ (∀ f, workspaceFolder = Some f ->
              pick_workspaceFolder call = Some f
              ∧ pick_selectedFolderName call = Some (name f)
              ∧ snd result = h)
         ∧ (workspaceFolder = None ->
              ∀ f, pick_workspaceFolder call = Some f ->
                pick_selectedFolderName call = Some (name f)
                ∧ ∃ before after,
                    folders = before ++ f :: after
                    ∧ ∀ g, g ∈ before -> name g ≠ name f)).
Proof.
  intros result. unfold result, createOrEditBinding. split.
  - intros ->. cbn [fst snd]. split; [done|].
    destruct (decide (action = Some OPEN_FOLDER_ACTION)); cbn [show shown].
    + rewrite decide_True by done. by rewrite <-app_assoc.
    + by rewrite decide_False.
  - intros folders ->.
    destruct workspaceFolder as [f|].
    + eexists. split; [done|]. cbn. split_and!; try done;
        try (by destruct serverType).
      intros ? [= ->]. auto.
    + destruct (showFolderSelectionQuickPickOrReturnDefaultSelection folders h)
        as [selected h1] eqn:Hsel.
      eexists. split; [done|]. cbn. split_and!; try done;
        try (by destruct serverType).
      intros _ f Hf. apply find_by_name_Some in Hf as (b & a & ? & ? & ?).
      split; [done|]. by exists b, a.
Qed.

(** ** [performIsIgnoredCheck], [isIgnored] and [isIgnoredByScm] *)

(** X10. [performIsIgnoredCheck] writes at most one line to the output
    channel, and only when it answers [false]; without a channel it writes
    nothing. *)
Theorem performIsIgnoredCheck_output (host : ScmHost) (fileUri : string)
    (scmCheck : string -> string -> Js.result bool)
    (sonarlintOutput : option (list string)) :
  let result := performIsIgnoredCheck host fileUri scmCheck sonarlintOutput in
  (sonarlintOutput = None -> snd result = None)
  ∧ (∀ lines, sonarlintOutput = Some lines ->
       snd result = Some lines
       ∨ ∃ line, snd result = Some (lines ++ [line]) ∧ fst result = Js.Ok false).
Proof.
  intros result. unfold result, performIsIgnoredCheck, performIsIgnoredCheck_try.
  split.
  - intros ->. repeat case_match; simplify_eq; done.
  - intros lines ->. repeat case_match; simplify_eq; cbn; eauto.
Qed.

(** The check of [performIsIgnoredCheck_with] that does not write is the
    check of [performIsIgnoredCheck]. *)
Lemma performIsIgnoredCheck_with_pure (host : ScmHost) (fileUri : string)
    (scmCheck : string -> string -> Js.result bool)
    (sonarlintOutput : option (list string)) :
  performIsIgnoredCheck_with host fileUri (λ p c out, (scmCheck p c, out))
    sonarlintOutput
  = performIsIgnoredCheck host fileUri scmCheck sonarlintOutput.
Proof.
  unfold performIsIgnoredCheck_with, performIsIgnoredCheck, performIsIgnoredCheck_try.
  repeat case_match; simplify_eq; done.
Qed.

Lemma isNeitherOkNorFail_spec (code : option Z) :
  isNeitherOkNorFail code = false ↔ code = Some 0%Z ∨ code = Some 1%Z.
Proof.
  unfold isNeitherOkNorFail, E_OK, E_FAIL. cbn [Array_indexOf].
  rewrite bool_decide_eq_false.
  destruct (decide (code = Some 0%Z)) as [->|H0]; [by intuition lia|].
  destruct (decide (code = Some 1%Z)) as [->|H1]; [by intuition lia|].
  split; [lia|]. by intros [?|?].
Qed.

(** X11. [isIgnored] rejects exactly when the command ended with an error
    whose code is neither 0 nor 1 (a missing code included), and it is only
    then, in verbose mode, that it writes a line.  Otherwise it resolves, to
    [true] exactly when the command wrote nothing on its error output and
    something on its output. *)
Theorem isIgnored_spec (exec : string -> string -> ExecOutcome) (verbose : bool)
    (workspaceFolderPath gitCommand : string)
    (sonarlintOutput : option (list string)) :
  let outcome := exec gitCommand workspaceFolderPath in
  let result := isIgnored exec verbose workspaceFolderPath gitCommand sonarlintOutput in
  let fatal :=
    ∃ error, exec_error outcome = Some error
             ∧ error_code error ≠ Some 0%Z ∧ error_code error ≠ Some 1%Z in
  ((∃ e, fst result = Js.Throw e) ↔ fatal)
  ∧ (fst result = Js.Ok true
     ↔ ¬ fatal ∧ exec_stderr outcome = "" ∧ exec_stdout outcome ≠ "")
  ∧ (fst result = Js.Ok false
     ↔ ¬ fatal ∧ (exec_stderr outcome ≠ "" ∨ exec_stdout outcome = ""))
  ∧ (snd result ≠ sonarlintOutput -> verbose = true ∧ fatal).
Proof.
  intros outcome result fatal. unfold result, isIgnored. fold outcome.
  assert ((∃ error, exec_error outcome = Some error
                    ∧ isNeitherOkNorFail (error_code error) = true) ↔ fatal)
    as Hfatal.
  { unfold fatal. split; intros (error & He & Hc); exists error; (split; [done|]).
    - split; intros Hcode;
        (assert (isNeitherOkNorFail (error_code error) = false) as Hf
           by (apply isNeitherOkNorFail_spec; auto)); congruence.
    - destruct (isNeitherOkNorFail (error_code error)) eqn:Hf; [done|].
      apply isNeitherOkNorFail_spec in Hf as [?|?]; by destruct Hc. }
  assert (match exec_error outcome with
          | Some error =>
              if isNeitherOkNorFail (error_code error) then Some error else None
          | None => None
          end = None -> ¬ fatal) as Hnone.
  { intros Hn Hf. apply Hfatal in Hf as (error & He & Hc).
    by rewrite He, Hc in Hn. }
  destruct (match exec_error outcome with
            | Some error =>
                if isNeitherOkNorFail (error_code error) then Some error else None
            | None => None
            end) as [error|] eqn:Hf.
  - assert (fatal) as Hyes.
    { apply Hfatal. destruct (exec_error outcome) as [error'|]; [|done].
      exists error'. split; [done|].
      by destruct (isNeitherOkNorFail (error_code error')). }
    cbn [fst snd]. split_and!.
    + split; [done|by eexists].
    + split; [done|by intros [? _]].
    + split; [done|by intros [? _]].
    + intros Hneq. split; [|done]. by destruct verbose.
  - assert (¬ fatal) as Hnf by by apply Hnone.
    assert (0 < String.length (exec_stdout outcome) ↔ exec_stdout outcome ≠ "")
      as Hlen.
    { destruct (exec_stdout outcome); cbn; split; (done || lia). }
    unfold Js.truthy.
    destruct (decide (exec_stderr outcome = "")) as [Herr|Herr]; cbn [fst snd].
    + split_and!.
      * split; [by intros [? ?]|done].
      * rewrite <-Hlen. split.
        -- intros [= Hb]. by apply bool_decide_eq_true in Hb.
        -- intros (_ & _ & Hb). f_equal. by apply bool_decide_eq_true.
      * split.
        -- intros [= Hb]. apply bool_decide_eq_false in Hb. split; [done|].
           right. destruct (exec_stdout outcome); [done|]. cbn in Hb. lia.
        -- intros (_ & [?|Hs]); [done|]. f_equal. apply bool_decide_eq_false.
           rewrite Hs. cbn. lia.
      * done.
    + split_and!.
      * split; [by intros [? ?]|done].
      * split; [done|]. by intros (_ & ? & _).
      * split; [|done]. intros _. split; [done|by left].
      * done.
Qed.

Lemma isIgnored_true (exec : string -> string -> ExecOutcome) (verbose : bool)
    (workspaceFolderPath gitCommand : string)
    (sonarlintOutput : option (list string)) :
  fst (isIgnored exec verbose workspaceFolderPath gitCommand sonarlintOutput)
  = Js.Ok true ->
  exec_stderr (exec gitCommand workspaceFolderPath) = ""
  ∧ exec_stdout (exec gitCommand workspaceFolderPath) ≠ ""
  ∧ ∀ error, exec_error (exec gitCommand workspaceFolderPath) = Some error ->
             error_code error = Some 0%Z ∨ error_code error = Some 1%Z.
Proof.
  unfold isIgnored.
  set (outcome := exec gitCommand workspaceFolderPath).
  destruct (exec_error outcome) as [error|] eqn:He.
  - destruct (isNeitherOkNorFail (error_code error)) eqn:Hc; [done|].
    unfold Js.truthy. destruct (decide (exec_stderr outcome = "")); [|done].
    cbn [fst]. intros [= Hb]. apply bool_decide_eq_true in Hb.
    split_and!; [done| |].
    + intros Hs. rewrite Hs in Hb. cbn in Hb. lia.
    + intros ? [= <-]. by apply isNeitherOkNorFail_spec.
  - unfold Js.truthy. destruct (decide (exec_stderr outcome = "")); [|done].
    cbn [fst]. intros [= Hb]. apply bool_decide_eq_true in Hb.
    split_and!; [done| |done].
    intros Hs. rewrite Hs in Hb. cbn in Hb. lia.
Qed.

(** X12. [isIgnoredByScm] rejects only for a file of a workspace folder when
    the git extension is missing.  It answers [true] only when the git
    extension is active, the file is in a repository, and [git check-ignore]
    on the file, run at the root of that repository, ended with code 0 or 1,
    wrote nothing on its error output and something on its output. *)
Theorem isIgnoredByScm_spec (host : ScmHost) (exec : string -> string -> ExecOutcome)
    (verbose : bool) (fileUri : string) (sonarlintOutput : option (list string)) :
  let result := isIgnoredByScm host exec verbose fileUri sonarlintOutput in
  ((∃ e, fst result = Js.Throw e)
   ↔ is_Some (getWorkspaceFolder host (Uri_parse host fileUri))
     ∧ getExtension host "vscode.git" = None)
  ∧ (fst result = Js.Ok true ->
     ∃ extension gitExtension gitApi repo,
       getExtension host "vscode.git" = Some extension
       ∧ exports extension = Some gitExtension
       ∧ getAPI gitExtension 1 = Js.Ok gitApi
       ∧ getRepository gitApi (Uri_parse host fileUri) = Js.Ok (Some repo)
       ∧ let outcome :=
           exec (dquote +:+ git_path gitApi +:+ dquote +:+ " check-ignore "
                 +:+ dquote +:+ fsPath (Uri_parse host fileUri) +:+ dquote)
             (fsPath (rootUri repo)) in
         exec_stderr outcome = ""
         ∧ exec_stdout outcome ≠ ""
         ∧ ∀ error, exec_error outcome = Some error ->
                    error_code error = Some 0%Z ∨ error_code error = Some 1%Z).
Proof.
  intros result. unfold result, isIgnoredByScm, performIsIgnoredCheck_with.
  destruct (getWorkspaceFolder host (Uri_parse host fileUri)) as [wf|];
    [|split; [split; [by intros [? ?]|by intros [[? ?] _]]|done]].
  destruct (getExtension host "vscode.git") as [extension|] eqn:Hext;
    [|split; [split; [by eauto|by eexists]|done]].
  destruct (exports extension) as [gitExtension|] eqn:Hexp;
    [|split; [split; [by intros [? ?]|by intros [_ ?]]|done]].
  destruct (getAPI gitExtension 1) as [gitApi|e] eqn:Hapi;
    [|split; [split; [by intros [? ?]|by intros [_ ?]]|done]].
  destruct (getRepository gitApi (Uri_parse host fileUri)) as [[repo|]|e] eqn:Hrepo;
    [|split; [split; [by intros [? ?]|by intros [_ ?]]|done]..].
  destruct (isIgnored exec verbose _ _ sonarlintOutput) as [[b|e] out] eqn:Hi;
    cbn [fst].
  - split; [split; [by intros [? ?]|by intros [_ ?]]|].
    intros [= ->]. exists extension, gitExtension, gitApi, repo.
    do 4 (split; [done|]).
    apply (isIgnored_true exec verbose _ _ sonarlintOutput). by rewrite Hi.
  - split; [split; [by intros [? ?]|by intros [_ ?]]|done].
Qed.

(** ** [logWithPrefix] *)

Lemma splitLines_characters (s : string) :
  concat (map String.list_ascii_of_string (splitLines s)) = withoutTerminators s
  ∧ Forall (λ l, Forall (λ c, c ≠ CR ∧ c ≠ LF) (String.list_ascii_of_string l))
      (splitLines s).
Proof.
  unfold withoutTerminators.
  induction s as [|c rest [IHc IHf]]; [by repeat constructor|].
  cbn [splitLines String.list_ascii_of_string]. rewrite filter_cons.
  destruct (decide (c = CR)) as [->|Hcr].
  - rewrite decide_False by (by intros [? _]).
    destruct rest as [|c' rest'].
    + split; [done|]. by repeat constructor.
    + destruct (decide (c' = LF)) as [->|Hlf].
      * cbn [splitLines] in IHc, IHf.
        rewrite decide_False in IHc, IHf by done.
        rewrite decide_True in IHc, IHf by done. done.
      * cbn [map concat String.list_ascii_of_string app]. split; [done|].
        constructor; [constructor|done].
  - destruct (decide (c = LF)) as [->|Hlf].
    + rewrite decide_False by (by intros [_ ?]).
      cbn [map concat String.list_ascii_of_string app]. split; [done|].
      constructor; [constructor|done].
    + rewrite decide_True by done.
      destruct (splitLines rest) as [|l ls].
      * cbn in IHc |- *. rewrite <-IHc. split; [done|].
        by repeat constructor.
      * cbn [map concat String.list_ascii_of_string app] in IHc |- *. rewrite <-IHc.
        split; [done|]. apply Forall_cons in IHf as [Hl Hls].
        constructor; [|done]. cbn. by constructor.
Qed.

Lemma logWithPrefix_lines (prefix : string) (ls lines : list string) :
  fold_left
    (λ out l,
       if bool_decide (0 < String.length l)
       then logToSonarLintOutput (prefix +:+ " " +:+ l) out
       else out)
    ls (Some lines)
  = Some (lines ++ map (λ l, prefix +:+ " " +:+ l) (filter (λ l, l ≠ "") ls)).
Proof.
  revert lines. induction ls as [|l ls IH]; intros lines; cbn [fold_left].
  - by rewrite app_nil_r.
  - rewrite filter_cons. destruct l as [|c l]; cbn [String.length].
    + rewrite bool_decide_eq_false_2 by lia.
      rewrite decide_False by (intros H; by apply H).
      apply IH.
    + rewrite bool_decide_eq_true_2 by lia. rewrite decide_True by done.
      cbn [logToSonarLintOutput]. rewrite IH. cbn [map]. by rewrite <-app_assoc.
Qed.

Lemma stretches_intro (gap : list ascii) (rest : list (string * list ascii)) :
  Forall isTerminator gap ->
  Forall (λ piece,
            piece.1 ≠ ""
            ∧ Forall (λ c, ¬ isTerminator c) (String.list_ascii_of_string piece.1)
            ∧ Forall isTerminator piece.2) rest ->
  (∀ i piece, rest !! i = Some piece -> S i < length rest -> piece.2 ≠ []) ->
  stretches
    (gap ++ concat (map (λ piece, String.list_ascii_of_string piece.1 ++ piece.2) rest))
    gap rest.
Proof. intros. by split_and!. Qed.

Lemma span_unique {A} (P : A -> Prop) (l1 l2 r1 r2 : list A) :
  Forall P l1 -> Forall P l2 ->
  (∀ x r, r1 = x :: r -> ¬ P x) -> (∀ x r, r2 = x :: r -> ¬ P x) ->
  l1 ++ r1 = l2 ++ r2 -> l1 = l2 ∧ r1 = r2.
Proof.
  revert l2. induction l1 as [|x l1 IH]; intros [|y l2] H1 H2 Hr1 Hr2 Heq;
    cbn [app] in Heq.
  - done.
  - apply Forall_cons in H2 as [Hy _]. by destruct (Hr1 y (l2 ++ r2)).
  - apply Forall_cons in H1 as [Hx _]. by destruct (Hr2 x (l1 ++ r1)).
  - injection Heq as -> Heq.
    apply Forall_cons in H1 as [_ H1]. apply Forall_cons in H2 as [_ H2].
    destruct (IH l2 H1 H2 Hr1 Hr2 Heq) as [-> ->]. done.
Qed.

Lemma pieces_head (rest : list (string * list ascii)) (x : ascii) (r : list ascii) :
  Forall (λ piece,
            piece.1 ≠ ""
            ∧ Forall (λ c, ¬ isTerminator c) (String.list_ascii_of_string piece.1)
            ∧ Forall isTerminator piece.2) rest ->
  concat (map (λ piece, String.list_ascii_of_string piece.1 ++ piece.2) rest) = x :: r ->
  ¬ isTerminator x.
Proof.
  intros Hrest Heq. destruct rest as [|[s g] rest]; [done|].
  apply Forall_cons in Hrest as [(Hne & Hs & _) _]. cbn [fst snd] in Hne, Hs.
  destruct s as [|c s]; [done|].
  cbn [map concat fst snd String.list_ascii_of_string app] in Heq.
  injection Heq as <- _. by apply Forall_cons in Hs as [Hc _].
Qed.

Lemma pieces_unique (rest rest' : list (string * list ascii)) :
  Forall (λ piece,
            piece.1 ≠ ""
            ∧ Forall (λ c, ¬ isTerminator c) (String.list_ascii_of_string piece.1)
            ∧ Forall isTerminator piece.2) rest ->
  Forall (λ piece,
            piece.1 ≠ ""
            ∧ Forall (λ c, ¬ isTerminator c) (String.list_ascii_of_string piece.1)
            ∧ Forall isTerminator piece.2) rest' ->
  (∀ i piece, rest !! i = Some piece -> S i < length rest -> piece.2 ≠ []) ->
  (∀ i piece, rest' !! i = Some piece -> S i < length rest' -> piece.2 ≠ []) ->
  concat (map (λ piece, String.list_ascii_of_string piece.1 ++ piece.2) rest)
  = concat (map (λ piece, String.list_ascii_of_string piece.1 ++ piece.2) rest') ->
  rest = rest'.
Proof.
  revert rest'.
  induction rest as [|[s g] rest IH]; intros [|[s' g'] rest'] H1 H2 Hi1 Hi2 Heq.
  - done.
  - apply Forall_cons in H2 as [(Hne & _ & _) _]. cbn [fst] in Hne.
    destruct s'; [done|by cbn in Heq].
  - apply Forall_cons in H1 as [(Hne & _ & _) _]. cbn [fst] in Hne.
    destruct s; [done|by cbn in Heq].
  - cbn [map concat fst snd] in Heq. rewrite <-!app_assoc in Heq.
    apply Forall_cons in H1 as [(Hne & Hs & Hg) H1].
    apply Forall_cons in H2 as [(Hne' & Hs' & Hg') H2].
    cbn [fst snd] in Hne, Hs, Hg, Hne', Hs', Hg'.
    (* what follows a stretch is empty or begins with a terminator *)
    assert (∀ (g0 : list ascii) (r0 : list (string * list ascii)),
              Forall isTerminator g0 ->
              (r0 ≠ [] -> g0 ≠ []) ->
              ∀ x r,
                g0 ++ concat (map (λ piece,
                                     String.list_ascii_of_string piece.1 ++ piece.2) r0)
                = x :: r ->
                ¬ ¬ isTerminator x) as Hafter.
    { intros g0 r0 Hg0 Hr0 x r Hx Hnot.
      destruct g0 as [|c g0].
      - destruct r0; [done|]. by destruct Hr0.
      - injection Hx as <- _. by apply Forall_cons in Hg0 as [Hc _]. }
    assert (rest ≠ [] -> g ≠ []) as Hgne.
    { intros Hr. apply (Hi1 0 (s, g)); [done|]. destruct rest; [done|cbn; lia]. }
    assert (rest' ≠ [] -> g' ≠ []) as Hgne'.
    { intros Hr. apply (Hi2 0 (s', g')); [done|]. destruct rest'; [done|cbn; lia]. }
    destruct (span_unique (λ c, ¬ isTerminator c) _ _ _ _ Hs Hs'
                (Hafter g rest Hg Hgne) (Hafter g' rest' Hg' Hgne') Heq)
      as [Hss Heq'].
    assert (s = s') as <-.
    { rewrite <-(String.string_of_list_ascii_of_string s),
        <-(String.string_of_list_ascii_of_string s'). by rewrite Hss. }
    destruct (span_unique isTerminator _ _ _ _ Hg Hg'
                (λ x r, pieces_head rest x r H1) (λ x r, pieces_head rest' x r H2) Heq')
      as [<- Heq''].
    f_equal. apply IH; [done|done| | |done].
    + intros i piece Hi Hlen. apply (Hi1 (S i)); [done|cbn; lia].
    + intros i piece Hi Hlen. apply (Hi2 (S i)); [done|cbn; lia].
Qed.

(** The characters of a text are cut into stretches in one way only. *)
Lemma stretches_unique (cs gap gap' : list ascii)
    (rest rest' : list (string * list ascii)) :
  stretches cs gap rest -> stretches cs gap' rest' -> gap = gap' ∧ rest = rest'.
Proof.
  intros (-> & Hg & Hrest & Hi) (Heq & Hg' & Hrest' & Hi').
  destruct (span_unique isTerminator _ _ _ _ Hg Hg'
              (λ x r, pieces_head rest x r Hrest) (λ x r, pieces_head rest' x r Hrest')
              Heq) as [<- Heq'].
  split; [done|]. by apply pieces_unique.
Qed.

Lemma splitLines_stretches (s : string) :
  ∃ l0 ls gap rest,
    splitLines s = l0 :: ls
    ∧ String.list_ascii_of_string s
      = String.list_ascii_of_string l0
        ++ gap
        ++ concat (map (λ piece, String.list_ascii_of_string piece.1 ++ piece.2) rest)
    ∧ filter (λ l, l ≠ "") ls = map fst rest
    ∧ Forall (λ c, ¬ isTerminator c) (String.list_ascii_of_string l0)
    ∧ stretches
        (gap ++ concat (map (λ piece, String.list_ascii_of_string piece.1 ++ piece.2)
                          rest))
        gap rest
    ∧ (rest ≠ [] -> gap ≠ []).
Proof.
  induction s as [|c r (l0 & ls & gap & rest & Hsplit & Hchars & Hls & Hl0 & Hst & Hgap)].
  - exists "", [], [], []. by split_and!.
  - destruct Hst as (_ & Hg & Hrest & Hinner).
    (* a terminator in front of [r] *)
    assert (isTerminator c ->
            ∃ gap' rest',
              String.list_ascii_of_string (String c r)
              = gap' ++ concat (map (λ piece,
                                       String.list_ascii_of_string piece.1 ++ piece.2)
                                  rest')
              ∧ filter (λ l, l ≠ "") (l0 :: ls) = map fst rest'
              ∧ stretches
                  (gap' ++ concat (map (λ piece,
                                          String.list_ascii_of_string piece.1 ++ piece.2)
                                     rest'))
                  gap' rest'
              ∧ gap' ≠ []) as Hterm.
    { intros Hc. cbn [String.list_ascii_of_string]. rewrite Hchars, filter_cons.
      destruct (decide (l0 ≠ "")) as [Hne|He].
      - exists [c], ((l0, gap) :: rest).
        split; [cbn [map concat fst snd app]; by rewrite <-app_assoc|].
        split; [cbn [map fst]; by rewrite Hls|].
        split; [|done].
        apply (stretches_intro [c] ((l0, gap) :: rest)).
        + constructor; [done|constructor].
        + by constructor.
        + intros [|i] piece Hi Hlen; cbn in Hi, Hlen.
          * injection Hi as <-. cbn. apply Hgap. destruct rest; [cbn in Hlen; lia|done].
          * apply (Hinner i); [done|lia].
      - assert (l0 = "") as -> by (destruct (decide (l0 = "")); [done|by destruct He]).
        exists (c :: gap), rest. cbn [String.list_ascii_of_string app].
        split; [done|]. split; [done|]. split; [|done].
        apply (stretches_intro (c :: gap) rest); [by constructor|done|done]. }
    cbn [splitLines].
    destruct (decide (c = CR)) as [->|Hcr].
    + destruct r as [|c' r'].
      * destruct Hterm as (gap' & rest' & H1 & H2 & H3 & H4); [by left|].
        exists "", (l0 :: ls), gap', rest'. rewrite Hsplit.
        split; [done|]. split; [done|]. split; [done|]. split; [constructor|]. done.
      * destruct (decide (c' = LF)) as [->|Hlf].
        -- cbn [splitLines] in Hsplit.
           rewrite decide_False in Hsplit by done.
           rewrite decide_True in Hsplit by done.
           injection Hsplit as <- <-.
           exists "", (splitLines r'), (CR :: gap), rest.
           cbn [String.list_ascii_of_string app] in Hchars |- *.
           rewrite Hchars.
           split; [done|]. split; [done|]. split; [done|]. split; [constructor|].
           split; [|done].
           apply (stretches_intro (CR :: gap) rest); [|done|done].
           constructor; [by left|done].
        -- destruct Hterm as (gap' & rest' & H1 & H2 & H3 & H4); [by left|].
           exists "", (l0 :: ls), gap', rest'. rewrite Hsplit.
           split; [done|]. split; [done|]. split; [done|]. split; [constructor|]. done.
    + destruct (decide (c = LF)) as [->|Hlf].
      * destruct Hterm as (gap' & rest' & H1 & H2 & H3 & H4); [by right|].
        exists "", (l0 :: ls), gap', rest'. rewrite Hsplit.
        split; [done|]. split; [done|]. split; [done|]. split; [constructor|]. done.
      * rewrite Hsplit. exists (String c l0), ls, gap, rest.
        cbn [String.list_ascii_of_string app]. rewrite Hchars.
        split; [done|]. split; [done|]. split; [done|]. split.
        -- constructor; [|done]. by intros [?|?].
        -- split; [|done]. by apply stretches_intro.
Qed.

(** X13. [logWithPrefix] writes nothing unless verbose logs are enabled, and
    nothing without an output channel.  Otherwise the data is cut at its line
    terminators: it writes one line, made of the prefix, a space and the
    stretch, for each longest stretch of the data without carriage return and
    line feed, in the order of the data, and nothing else.  The data is cut
    into such stretches in one way only. *)
Theorem logWithPrefix_spec (verbose : bool) (data prefix : string)
    (lines : list string) :
  logWithPrefix false data prefix (Some lines) = Some lines
  ∧ logWithPrefix verbose data prefix None = None
  ∧ ∃ gap rest,
      stretches (String.list_ascii_of_string data) gap rest
      ∧ (∀ gap' rest',
           stretches (String.list_ascii_of_string data) gap' rest' ->
           gap' = gap ∧ rest' = rest)
      ∧ logWithPrefix true data prefix (Some lines)
        = Some (lines ++ map (λ piece, prefix +:+ " " +:+ piece.1) rest).
Proof.
  split; [done|]. split.
  - unfold logWithPrefix. destruct verbose; [|done].
    induction (splitLines data) as [|l ls IH]; [done|].
    cbn [fold_left]. by destruct (bool_decide _).
  - enough (∃ gap rest,
              stretches (String.list_ascii_of_string data) gap rest
              ∧ logWithPrefix true data prefix (Some lines)
                = Some (lines ++ map (λ piece, prefix +:+ " " +:+ piece.1) rest))
      as (gap & rest & Hst & Hlog).
    { exists gap, rest. split_and!; [done| |done].
      intros gap' rest' Hst'. by apply (stretches_unique _ _ _ _ _ Hst' Hst). }
    destruct (splitLines_stretches data)
      as (l0 & ls & gap & rest & Hsplit & Hchars & Hls & Hl0 & Hst & Hgap).
    unfold logWithPrefix. rewrite logWithPrefix_lines, Hsplit, filter_cons.
    destruct Hst as (_ & Hg & Hrest & Hinner).
    destruct (decide (l0 ≠ "")) as [Hne|He].
    + exists [], ((l0, gap) :: rest). split.
      * rewrite Hchars.
        replace (String.list_ascii_of_string l0 ++ gap
                 ++ concat (map (λ piece, String.list_ascii_of_string piece.1 ++ piece.2)
                              rest))
          with ([] ++ concat (map (λ piece,
                                     String.list_ascii_of_string piece.1 ++ piece.2)
                                ((l0, gap) :: rest)))
          by (cbn [map concat fst snd app]; by rewrite <-app_assoc).
        apply (stretches_intro [] ((l0, gap) :: rest)).
        -- constructor.
        -- by constructor.
        -- intros [|i] piece Hi Hlen; cbn in Hi, Hlen.
           ++ injection Hi as <-. cbn. apply Hgap.
              destruct rest; [cbn in Hlen; lia|done].
           ++ apply (Hinner i); [done|lia].
      * rewrite Hls. cbn [map fst]. by rewrite map_map.
    + assert (l0 = "") as -> by (destruct (decide (l0 = "")); [done|by destruct He]).
      exists gap, rest. split.
      * rewrite Hchars. by apply stretches_intro.
      * rewrite Hls. by rewrite map_map.
Qed.

(** ** [toggleRule] *)

(** X14. After a rule is toggled from its node, the rule is active exactly
    when the level asked for is ['on']: the setting holds an entry with that
    level when it differs from the default activation, and [undefined] when it
    is the default.  Toggled from its key alone, the rule gets an entry with
    the level in every case.  The entries of all other rules are untouched. *)
Theorem toggleRule_spec (lvl : ConfigLevel)
    (rules : option (gmap string (option RuleConfig))) :
  (∀ node,
     ruleIsActive (toggleRule lvl (inr node) rules) (rule_key node)
       (rule_activeByDefault node)
     = bool_decide (lvl = on)
     ∧ toggleRule lvl (inr node) rules !! rule_key node
       = Some (if decide (bool_decide (lvl = on) = rule_activeByDefault node)
               then None
               else Some {| level := lvl; parameters := None |})
     ∧ ∀ k, k ≠ rule_key node ->
            toggleRule lvl (inr node) rules !! k = default ∅ rules !! k)
  ∧ (∀ key activeByDefault,
       ruleIsActive (toggleRule lvl (inl key) rules) key activeByDefault
       = bool_decide (lvl = on)
       ∧ toggleRule lvl (inl key) rules !! key
         = Some (Some {| level := lvl; parameters := None |})
       ∧ ∀ k, k ≠ key ->
              toggleRule lvl (inl key) rules !! k = default ∅ rules !! k).
Proof.
  split.
  - intros [key activeByDefault]. unfold ruleIsActive, toggleRule.
    cbn [rule_key rule_activeByDefault].
    destruct lvl, activeByDefault; repeat case_bool_decide; simplify_eq;
      cbn [andb orb negb]; rewrite lookup_insert_eq;
      (split_and!; [by repeat case_bool_decide|by repeat case_decide|]);
      intros k Hk; by rewrite lookup_insert_ne.
  - intros key activeByDefault. unfold ruleIsActive, toggleRule.
    rewrite lookup_insert_eq. split_and!; [done|done|].
    intros k Hk. by rewrite lookup_insert_ne.
Qed.

(** ** The first secret issue *)

(** X15. [isFirstSecretDetected] answers a boolean: [true] exactly when the
    global state holds [true], or the string ['true'] of an earlier version,
    under its key.  After the call the key holds no string, and a second call
    answers the same and changes nothing. *)
Theorem isFirstSecretDetected_spec (globalState : gmap string JsValue) :
  let result := isFirstSecretDetected globalState in
  fst result
  = JsBool (bool_decide
              (globalState !! "FIRST_SECRET_ISSUE_DETECTED_KEY" = Some (JsBool true)
               ∨ globalState !! "FIRST_SECRET_ISSUE_DETECTED_KEY"
                 = Some (JsString "true")))
  ∧ (∀ s, snd result !! "FIRST_SECRET_ISSUE_DETECTED_KEY" ≠ Some (JsString s))
  ∧ (∀ k, k ≠ "FIRST_SECRET_ISSUE_DETECTED_KEY" ->
          snd result !! k = globalState !! k)
  ∧ isFirstSecretDetected (snd result) = result.
Proof.
  intros result. unfold result, isFirstSecretDetected.
  fold FIRST_SECRET_ISSUE_DETECTED_KEY.
  destruct (globalState !! FIRST_SECRET_ISSUE_DETECTED_KEY) as [[b|s]|] eqn:Hg;
    cbn [fst snd]; rewrite ?lookup_insert_eq, ?Hg; cbn [from_option Datatypes.id].
  - split_and!; [|done|done|done].
    f_equal. destruct b.
    + rewrite bool_decide_eq_true_2; [done|by left].
    + rewrite bool_decide_eq_false_2; [done|]. by intros [?|?].
  - split_and!; [|done| |done].
    + f_equal. destruct (decide (s = "true")) as [->|Hs].
      * rewrite !bool_decide_eq_true_2; [done|by right|done].
      * rewrite !bool_decide_eq_false_2; [done| |done].
        intros [?|[= ?]]; done.
    + intros k Hk. by rewrite lookup_insert_ne.
  - done.
Qed.

(** X16. Once [showNotificationForFirstSecretsIssue] has run, whatever the
    global state held and whatever the user answers,
    [isFirstSecretDetected] answers [true] and changes nothing.  The
    notification shows one warning, and opens the Problems view exactly when
    the user asks for it. *)
Theorem showNotificationForFirstSecretsIssue_spec (action : option string)
    (globalState : gmap string JsValue) (shown : list UiEvent) :
  let result := showNotificationForFirstSecretsIssue action globalState shown in
  isFirstSecretDetected (fst result) = (JsBool true, fst result)
  ∧ ∃ message,
      snd result
      = shown
        ++ ShowWarningMessage message ["Show Problems View"]
           :: (if decide (action = Some "Show Problems View")
               then [ExecuteCommand "workbench.panel.markers.view.focus"]
               else []).
Proof.
  intros result. unfold result, showNotificationForFirstSecretsIssue.
  cbn [fst snd]. split.
  - unfold isFirstSecretDetected. cbv zeta. by rewrite !lookup_insert_eq.
  - eexists. destruct (decide (action = Some "Show Problems View")).
    + by rewrite <-app_assoc.
    + done.
Qed.

(** ** [notifyMissingCompileCommands] *)

(** X17. A notification about missing compile commands asks the user only
    while neither "Don't ask again" nor "Ask me later" has been answered:
    after one of these answers every later notification shows nothing,
    changes nothing and configures nothing, whatever would be answered.  The
    configuration of a compilation database starts only from the answer
    "Configure compile commands" to a warning that was shown. *)
Theorem notifyMissingCompileCommands_spec (selection : option string)
    (st : CompileCommandsPrompt) :
  selection = Some "Don't ask again" ∨ selection = Some "Ask me later" ->
  (∀ later,
     notifyMissingCompileCommands later
       (snd (notifyMissingCompileCommands selection st))
     = (false, snd (notifyMissingCompileCommands selection st)))
  ∧ fst (notifyMissingCompileCommands selection st) = false
  ∧ ∀ answer,
      fst (notifyMissingCompileCommands answer st) = true ->
      answer = Some "Configure compile commands"
      ∧ ∃ message items,
          prompt_shown (snd (notifyMissingCompileCommands answer st))
          = prompt_shown st ++ [ShowWarningMessage message items].
Proof.
  intros Hsel. split_and!.
  - intros later. unfold notifyMissingCompileCommands at 2 3.
    destruct (JsValue_truthy _ || _) eqn:Hsilent.
    + cbn [snd]. unfold notifyMissingCompileCommands. by rewrite Hsilent.
    + destruct Hsel as [-> | ->].
      * rewrite decide_True by done. cbn [snd].
        unfold notifyMissingCompileCommands, doNotAskAboutCompileCommandsFlag.
        cbn [prompt_workspaceState]. by rewrite lookup_insert_eq.
      * rewrite decide_False by done. rewrite decide_False by done.
        rewrite decide_True by done. cbn [snd].
        unfold notifyMissingCompileCommands.
        cbn [remindMeLaterAboutCompileCommandsFlag]. by rewrite orb_true_r.
  - unfold notifyMissingCompileCommands.
    destruct (JsValue_truthy _ || _); [done|].
    destruct Hsel as [-> | ->]; [by rewrite decide_True|].
    rewrite decide_False by done. by rewrite decide_False.
  - intros answer. unfold notifyMissingCompileCommands.
    destruct (JsValue_truthy _ || _); [done|].
    repeat case_decide; cbn [fst snd prompt_shown]; try done.
    intros _. split; [done|]. by eexists _, _.
Qed.

Lemma notifyMissingCompileCommands_witness :
  (∀ later,
     notifyMissingCompileCommands later
       (snd (notifyMissingCompileCommands (Some "Ask me later") freshPrompt))
     = (false, snd (notifyMissingCompileCommands (Some "Ask me later") freshPrompt)))
  ∧ fst (notifyMissingCompileCommands (Some "Ask me later") freshPrompt) = false
  ∧ ∀ answer,
      fst (notifyMissingCompileCommands answer freshPrompt) = true ->
      answer = Some "Configure compile commands"
      ∧ ∃ message items,
          prompt_shown (snd (notifyMissingCompileCommands answer freshPrompt))
          = prompt_shown freshPrompt ++ [ShowWarningMessage message items].
Proof.
  apply (notifyMissingCompileCommands_spec (Some "Ask me later") freshPrompt).
  right. reflexivity.
Defined.

(** ** [onConfigurationChange] *)

Lemma configKeyEquals_refl (key : string) (config : gmap string JsValue) :
  configKeyEquals key config config = true.
Proof. unfold configKeyEquals. by apply bool_decide_eq_true. Qed.

(** X18. The listener of configuration changes does nothing for a change that
    does not affect ['sonarlint'].  Otherwise it migrates the connected-mode
    settings, and it asks for a restart exactly when the Java home, the
    arguments of the virtual machine or the path to Node.js differ between
    the current and the new configuration; the new configuration then becomes
    the current one, so that the same change handled again asks nothing.
    When none of the three differs the current configuration stays as it is,
    other keys included. *)
Theorem onConfigurationChange_listener_spec (affectsSonarLint : bool)
    (newConfig : gmap string JsValue) (selection : option string)
    (st : ConfigurationWatch) :
  let changed :=
    currentConfig st !! "ls.javaHome" ≠ newConfig !! "ls.javaHome"
    ∨ currentConfig st !! "ls.vmargs" ≠ newConfig !! "ls.vmargs"
    ∨ currentConfig st !! "pathToNodeExecutable" ≠ newConfig !! "pathToNodeExecutable" in
  let result := onConfigurationChange_listener affectsSonarLint newConfig selection st in
  (affectsSonarLint = false -> result = (false, st))
  ∧ (affectsSonarLint = true ->
     fst result = true
     ∧ (changed ->
        currentConfig (snd result) = newConfig
        ∧ ∃ message,
            watch_shown (snd result)
            = watch_shown st
              ++ ShowWarningMessage message ["Restart Now"]
                 :: (if decide (selection = Some "Restart Now")
                     then [ExecuteCommand "workbench.action.reloadWindow"]
                     else []))
     ∧ (¬ changed -> snd result = st)
     ∧ ∀ later,
         onConfigurationChange_listener true newConfig later (snd result)
         = (true, snd result)).
Proof.
  intros changed result. unfold result, onConfigurationChange_listener. split.
  - by intros ->.
  - intros ->. cbn [negb].
    assert (hasSonarLintLsConfigChanged (currentConfig st) newConfig
            || hasNodeJsConfigChanged (currentConfig st) newConfig = true
            ↔ changed) as Hchanged.
    { unfold hasSonarLintLsConfigChanged, hasNodeJsConfigChanged, configKeyEquals,
        changed.
      rewrite !orb_true_iff, !negb_true_iff, !bool_decide_eq_false. tauto. }
    destruct (hasSonarLintLsConfigChanged (currentConfig st) newConfig
              || hasNodeJsConfigChanged (currentConfig st) newConfig) eqn:Hc;
      cbn [fst snd currentConfig watch_shown].
    + split_and!; [done| |by intros Hn; destruct Hn; apply Hchanged|].
      * intros _. split; [done|]. by eexists.
      * intros later. unfold hasSonarLintLsConfigChanged, hasNodeJsConfigChanged.
        by rewrite !configKeyEquals_refl.
    + split_and!; [done| |done|].
      * intros Hyes. apply Hchanged in Hyes. done.
      * intros later. by rewrite Hc.
Qed.

(** ** The compilation database *)

Lemma substring_all (s : string) : String.substring 0 (String.length s) s = s.
Proof. induction s as [|c s IH]; cbn; [done|]. by rewrite IH. Qed.

Lemma substring_after_append (p rest : string) :
  String.substring (String.length p)
    (String.length (p +:+ rest) - String.length p) (p +:+ rest) = rest.
Proof.
  induction p as [|c p IH]; cbn [String.append String.length String.substring].
  - rewrite Nat.sub_0_r. apply substring_all.
  - apply IH.
Qed.

Lemma prefix_append (p s : string) :
  String.prefix p s = true -> ∃ rest, s = p +:+ rest.
Proof.
  revert s. induction p as [|a p IH]; intros s; cbn [String.prefix].
  - intros _. by exists s.
  - destruct s as [|b s]; [done|]. cbn [String.prefix].
    destruct (Ascii.ascii_dec a b) as [->|]; [|done].
    intros [rest ->]%IH. by exists rest.
Qed.

Lemma String_replace_prefix (p rest : string) :
  String_replace (p +:+ rest) p "" = rest.
Proof.
  unfold String_replace.
  assert (String.index 0 p (p +:+ rest) = Some 0) as ->.
  { assert (String.prefix p (p +:+ rest) = true) as Hp.
    { induction p as [|a p IH]; [by destruct rest|].
      change (String a p +:+ rest) with (String a (p +:+ rest)).
      cbn [String.prefix]. by destruct (Ascii.ascii_dec a a). }
    apply indexOf_zero_prefix in Hp. unfold Js.indexOf in Hp.
    destruct (String.index 0 p (p +:+ rest)) as [n|]; [|done].
    f_equal. lia. }
  cbn [Nat.add]. replace (String.substring 0 0 (p +:+ rest)) with "".
  - cbn [String.append]. apply substring_after_append.
  - by destruct (p +:+ rest).
Qed.

Lemma tryRelativize_loop_spec (path : string) (folders : list WorkspaceFolder) :
  match snd (tryRelativize_loop path folders) with
  | Some f =>
      ∃ before after rest,
        folders = before ++ f :: after
        ∧ (∀ g, g ∈ before -> String.prefix (fsPath (uri g)) path = false)
        ∧ path = fsPath (uri f) +:+ rest
        ∧ fst (tryRelativize_loop path folders) = "${workspaceFolder}" +:+ rest
  | None =>
      fst (tryRelativize_loop path folders) = path
      ∧ ∀ g, g ∈ folders -> String.prefix (fsPath (uri g)) path = false
  end.
Proof.
  induction folders as [|f folders IH]; cbn [tryRelativize_loop].
  - split; [done|]. by intros g ?%elem_of_nil.
  - destruct (String.prefix (fsPath (uri f)) path) eqn:Hp; cbn [fst snd].
    + destruct (prefix_append _ _ Hp) as [rest ->].
      exists [], folders, rest. split_and!; [done| |done|].
      * by intros g ?%elem_of_nil.
      * by rewrite String_replace_prefix.
    + destruct (snd (tryRelativize_loop path folders)) as [f'|].
      * destruct IH as (before & after & rest & -> & Hb & Hpath & Hres).
        exists (f :: before), after, rest. split_and!; [done| |done|done].
        intros g [->|?]%elem_of_cons; [done|by apply Hb].
      * destruct IH as [Hres Hall]. split; [done|].
        intros g [->|?]%elem_of_cons; [done|by apply Hall].
Qed.

(** X19. [tryRelativizeToWorkspaceFolder] leaves a path that is not absolute,
    or that starts with the path of no workspace folder, as it is, with no
    folder.  Otherwise it answers the first workspace folder whose path the
    given path starts with, and the given path with that start replaced by
    [${workspaceFolder}]: putting the path of the folder back in place of the
    variable gives the given path again. *)
Theorem tryRelativizeToWorkspaceFolder_spec (isAbsolute : string -> bool)
    (path : string) (h : Host) :
  let result := tryRelativizeToWorkspaceFolder isAbsolute path h in
  (isAbsolute path = false -> result = (path, None))
  ∧ (snd result = None ->
     fst result = path
     ∧ (isAbsolute path = true ->
        ∀ g, g ∈ default [] (workspaceFolders h) ->
             String.prefix (fsPath (uri g)) path = false))
  ∧ (∀ f, snd result = Some f ->
       isAbsolute path = true
       ∧ ∃ before after rest,
           default [] (workspaceFolders h) = before ++ f :: after
           ∧ (∀ g, g ∈ before -> String.prefix (fsPath (uri g)) path = false)
           ∧ path = fsPath (uri f) +:+ rest
           ∧ fst result = "${workspaceFolder}" +:+ rest).
Proof.
  intros result. unfold result, tryRelativizeToWorkspaceFolder.
  destruct (isAbsolute path); cbn [negb]; [|by split_and!].
  pose proof (tryRelativize_loop_spec path (default [] (workspaceFolders h))) as H.
  destruct (snd (tryRelativize_loop path (default [] (workspaceFolders h))))
    as [f|] eqn:Hs.
  - split_and!; [done|done|]. intros ? [= <-]. done.
  - destruct H as [Hres Hall]. split_and!; [done| |done]. intros _. done.
Qed.

Lemma tryRelativize_loop_first (path : string) (before after : list WorkspaceFolder)
    (f : WorkspaceFolder) (rest : string) :
  (∀ g, g ∈ before -> String.prefix (fsPath (uri g)) path = false) ->
  path = fsPath (uri f) +:+ rest ->
  tryRelativize_loop path (before ++ f :: after)
  = ("${workspaceFolder}" +:+ rest, Some f).
Proof.
  intros Hb ->. induction before as [|g before IH]; cbn [app tryRelativize_loop].
  - assert (String.prefix (fsPath (uri f)) (fsPath (uri f) +:+ rest) = true) as ->.
    { generalize (fsPath (uri f)) as p. induction p as [|a p IHp];
        [by destruct rest|].
      change (String a p +:+ rest) with (String a (p +:+ rest)).
      cbn [String.prefix]. by destruct (Ascii.ascii_dec a a). }
    by rewrite String_replace_prefix.
  - rewrite (Hb g) by by left. apply IH. intros g' Hg'. apply Hb. by right.
Qed.

Lemma tryRelativize_loop_none (path : string) (folders : list WorkspaceFolder) :
  (∀ g, g ∈ folders -> String.prefix (fsPath (uri g)) path = false) ->
  tryRelativize_loop path folders = (path, None).
Proof.
  induction folders as [|g folders IH]; intros Hall; cbn [tryRelativize_loop];
    [done|].
  rewrite (Hall g) by by left. apply IH. intros g' Hg'. apply Hall. by right.
Qed.

(** X20. [showMessageAndUpdateConfig] shows one information message with the
    path.  When the path is absolute and lies under a workspace folder, taking
    the first one, it stores the path with the folder's path replaced by
    [${workspaceFolder}] at the workspace-folder level of that folder, and
    leaves the workspace level alone; in every other case it stores the path
    as given at the workspace level and leaves the folders alone. *)
Theorem showMessageAndUpdateConfig_spec (isAbsolute : string -> bool)
    (path : string) (h : Host) (s : CompileCommandsSettings) :
  let result := showMessageAndUpdateConfig isAbsolute path h s in
  fst result
  = show (ShowInformationMessage
            ("Analysis configured. Compilation database path is set to: " +:+ path)) h
  ∧ (∀ before f after rest,
       isAbsolute path = true ->
       default [] (workspaceFolders h) = before ++ f :: after ->
       (∀ g, g ∈ before -> String.prefix (fsPath (uri g)) path = false) ->
       path = fsPath (uri f) +:+ rest ->
       compileCommands_workspaceFolderValue (snd result)
       = <[toString (uri f) := "${workspaceFolder}" +:+ rest]>
           (compileCommands_workspaceFolderValue s)
       ∧ compileCommands_workspaceValue (snd result)
         = compileCommands_workspaceValue s)
  ∧ (isAbsolute path = false
     ∨ (∀ g, g ∈ default [] (workspaceFolders h) ->
             String.prefix (fsPath (uri g)) path = false) ->
     compileCommands_workspaceValue (snd result) = Some path
     ∧ compileCommands_workspaceFolderValue (snd result)
       = compileCommands_workspaceFolderValue s).
Proof.
  intros result. unfold result, showMessageAndUpdateConfig. split_and!.
  - by destruct (tryRelativizeToWorkspaceFolder _ _ _) as [? [?|]].
  - intros before f after rest Habs Hfolders Hb Hpath.
    unfold tryRelativizeToWorkspaceFolder. rewrite Habs. cbn [negb show workspaceFolders].
    rewrite Hfolders, (tryRelativize_loop_first path before after f rest Hb Hpath).
    done.
  - intros Hcase. unfold tryRelativizeToWorkspaceFolder.
    destruct (isAbsolute path); cbn [negb show workspaceFolders]; [|done].
    destruct Hcase as [?|Hall]; [done|].
    by rewrite (tryRelativize_loop_none path _ Hall).
Qed.

#[local] Existing Instance compareItems_dec.

Lemma sorted_item (localeCompare : string -> string -> Z) (paths : list Uri)
    (selection : IndexQP) :
  selection
  ∈ Array_sort (compareItems localeCompare)
      (imap (λ i path, {| qp_label := fsPath path; qp_description := "";
                          qp_index := i |}) paths) ->
  ∃ path, paths !! qp_index selection = Some path
          ∧ fsPath path = qp_label selection.
Proof.
  rewrite Array_sort_Permutation. intros (i & path & -> & Hi)%elem_of_lookup_imap.
  by exists path.
Qed.

(** X21. Provided the quick-pick answers one of the items it shows, or none,
    [configureCompilationDatabase] never throws.  With no compilation
    database it warns and clears the setting at the workspace level; with one
    it configures that one without asking; with several it shows them in one
    quick-pick and configures the one whose path is the label selected, or
    changes no setting when the pick is dismissed. *)
Theorem configureCompilationDatabase_spec (isAbsolute : string -> bool)
    (localeCompare : string -> string -> Z)
    (pick : list IndexQP -> option IndexQP) (paths : list Uri) (h : Host)
    (s : CompileCommandsSettings) :
  (∀ items selection, pick items = Some selection -> selection ∈ items) ->
  ∃ result,
    configureCompilationDatabase isAbsolute localeCompare pick paths h s
    = Js.Ok result
    ∧ (paths = [] ->
       (∃ message, shown (fst result) = shown h ++ [ShowWarningMessage message []])
       ∧ compileCommands_workspaceValue (snd result) = None
       ∧ compileCommands_workspaceFolderValue (snd result)
         = compileCommands_workspaceFolderValue s)
    ∧ (∀ path, paths = [path] ->
         result = showMessageAndUpdateConfig isAbsolute (fsPath path) h s)
    ∧ (1 < length paths ->
       ∃ items,
         items
         ≡ₚ imap (λ i path, {| qp_label := fsPath path; qp_description := "";
                               qp_index := i |}) paths
         ∧ match pick items with
           | Some selection =>
               qp_label selection ∈ map fsPath paths
               ∧ result
                 = showMessageAndUpdateConfig isAbsolute (qp_label selection)
                     (show (ShowQuickPick (map qp_label items) ""
                              "Pick a compilation database") h) s
           | None =>
               result
               = (show (ShowQuickPick (map qp_label items) ""
                          "Pick a compilation database") h, s)
           end).
Proof.
  intros Hpick. unfold configureCompilationDatabase, showCompilationDatabaseOptions.
  destruct paths as [|path [|path' paths]].
  - eexists. split; [done|]. cbn [fst snd]. split_and!; [|done|cbn; lia].
    intros _. split_and!; [by eexists|done|done].
  - eexists. split; [done|]. split_and!; [done| |cbn; lia].
    by intros ? [= <-].
  - rewrite decide_False by done. rewrite decide_False by (cbn; lia).
    set (items := Array_sort (compareItems localeCompare) _).
    destruct (pick items) as [selection|] eqn:Hsel.
    + destruct (sorted_item localeCompare (path :: path' :: paths) selection)
        as (chosen & Hchosen & Hlabel); [by apply Hpick|].
      rewrite Hchosen. eexists. split; [done|]. split_and!; [done|done|].
      intros _. exists items. split; [apply Array_sort_Permutation|].
      rewrite Hsel. split; [|by rewrite Hlabel].
      rewrite <-Hlabel. apply list_elem_of_fmap. exists chosen. split; [done|].
      by apply list_elem_of_lookup_2 in Hchosen.
    + eexists. split; [done|]. split_and!; [done|done|].
      intros _. exists items. split; [apply Array_sort_Permutation|].
      by rewrite Hsel.
Qed.

Lemma configureCompilationDatabase_witness :
  ∃ result,
    configureCompilationDatabase isAbsolute_posix compareLengths head
      [uri folderA; uri folderB] twoFolders noCompileCommands
    = Js.Ok result
    ∧ ([uri folderA; uri folderB] = [] ->
       (∃ message,
          shown (fst result) = shown twoFolders ++ [ShowWarningMessage message []])
       ∧ compileCommands_workspaceValue (snd result) = None
       ∧ compileCommands_workspaceFolderValue (snd result)
         = compileCommands_workspaceFolderValue noCompileCommands)
    ∧ (∀ path, [uri folderA; uri folderB] = [path] ->
         result
         = showMessageAndUpdateConfig isAbsolute_posix (fsPath path) twoFolders
             noCompileCommands)
    ∧ (1 < length [uri folderA; uri folderB] ->
       ∃ items,
         items
         ≡ₚ imap (λ i path, {| qp_label := fsPath path; qp_description := "";
                               qp_index := i |}) [uri folderA; uri folderB]
         ∧ match head items with
           | Some selection =>
               qp_label selection ∈ map fsPath [uri folderA; uri folderB]
               ∧ result
                 = showMessageAndUpdateConfig isAbsolute_posix (qp_label selection)
                     (show (ShowQuickPick (map qp_label items) ""
                              "Pick a compilation database") twoFolders)
                     noCompileCommands
           | None =>
               result
               = (show (ShowQuickPick (map qp_label items) ""
                          "Pick a compilation database") twoFolders,
                  noCompileCommands)
           end).
Proof.
  apply (configureCompilationDatabase_spec isAbsolute_posix compareLengths head
           [uri folderA; uri folderB] twoFolders noCompileCommands).
  intros items selection Hhead. destruct items as [|i items]; simpl in Hhead.
  - discriminate Hhead.
  - injection Hhead as ->. left.
Defined.

(** ** More on [getRemoteProjectsItems] *)

(** X22. When the request answers, [getRemoteProjectsItems] returns as many
    items as there are remote projects.  With at least one it shows nothing
    and changes nothing.  With none it returns the empty list after a warning
    that offers to bind manually: on that answer [bindManuallyAction] runs on
    the folder, which writes an empty binding for it unless it has a project
    key and opens the folder settings file; on any other answer no setting
    changes.  When the request throws no setting changes either. *)
Theorem getRemoteProjectsItems_messages (localeCompare : string -> string -> Z)
    (this : BindingService) (connectionId : string)
    (workspaceFolder : WorkspaceFolder) (serverType : ServerType)
    (action : option string) (h : Host) :
  let request :=
    getRemoteProjectsForConnection (languageClient this)
      (if decide (connectionId = "") then "<default>" else connectionId) in
  let result :=
    getRemoteProjectsItems localeCompare this connectionId workspaceFolder
      serverType action h in
  let warning :=
    ShowWarningMessage "No remote projects to display." ["Bind Manually"] in
  workspaceFolders (snd result) = workspaceFolders h
  ∧ (∀ error, request = Js.Throw error -> settings (snd result) = settings h)
  ∧ ∀ projects, request = Js.Ok projects ->
      length (fst result) = length projects
      ∧ (projects ≠ [] -> snd result = h)
      ∧ (projects = [] ->
         fst result = []
         ∧ (action ≠ Some "Bind Manually" ->
            settings (snd result) = settings h
            ∧ shown (snd result) = shown h ++ [warning])
         ∧ (action = Some "Bind Manually" ->
            shown (snd result)
            = shown h
              ++ [warning; ExecuteCommand "workbench.action.openFolderSettingsFile"]
            ∧ settings (snd result)
              = match projectKey (config_get (settings h) (uri workspaceFolder)) with
                | None =>
                    config_update (uri workspaceFolder)
                      (Some {| projectKey := Some ""; serverId := None;
                               connectionId := Some "" |})
                      None (settings h)
                | Some _ => settings h
                end)).
Proof.
  intros request result warning.
  unfold result, getRemoteProjectsItems, getRemoteProjects, Js.or_else.
  fold DEFAULT_CONNECTION_ID in request. fold request.
  destruct request as [projects|error]; cbn [fst snd]; [|by split_and!].
  rewrite (forEach_push (remoteProjectItem serverType)). cbn [app].
  split_and!.
  - destruct (decide (JsMap.size projects = 0)); [|done].
    destruct (decide (action = Some BIND_MANUALLY_ACTION)); [|done].
    by destruct (bindManuallyAction_settings workspaceFolder
                   (show (ShowWarningMessage "No remote projects to display."
                            [BIND_MANUALLY_ACTION]) h)) as [-> _].
  - done.
  - intros ? [= <-]. split_and!.
    + unfold sort. by rewrite Array_sort_Permutation, length_map.
    + intros Hne. rewrite decide_False; [done|]. by destruct projects.
    + intros ->. cbn [JsMap.size length]. rewrite decide_True by done.
      split_and!; [done| |].
      * intros Hno. by rewrite decide_False.
      * intros ->. rewrite decide_True by done. split.
        -- unfold bindManuallyAction.
           destruct (projectKey _); cbn [show shown getConfiguration_update with_settings];
             by rewrite <-app_assoc.
        -- by destruct (bindManuallyAction_settings workspaceFolder
                          (show (ShowWarningMessage "No remote projects to display."
                                   [BIND_MANUALLY_ACTION]) h)) as [_ ->].
Qed.

(** ** The embedded functions on further inputs *)

Example splitLines_example :
  splitLines ("one" +:+ String CR (String LF "two") +:+ String LF (String LF "three")
              +:+ String CR "")
  = ["one"; "two"; ""; "three"; ""].
Proof. vm_compute. reflexivity. Qed.

Example tryRelativizeToWorkspaceFolder_example :
  tryRelativizeToWorkspaceFolder isAbsolute_posix "/work/b/build/compile_commands.json"
    twoFolders
  = ("${workspaceFolder}/build/compile_commands.json", Some folderB)
  ∧ tryRelativizeToWorkspaceFolder isAbsolute_posix "build/compile_commands.json"
      twoFolders
    = ("build/compile_commands.json", None).
Proof. split; vm_compute; reflexivity. Qed.

Example isIgnoredByScm_example :
  isIgnoredByScm withGit
    (λ command cwd,
       {| exec_error := Some {| error_text := "Error: Command failed"; error_code := Some 128%Z |};
          exec_stdout := ""; exec_stderr := "fatal: not a git repository" |})
    true "file:///work/a/index.js" (Some [])
  = (Js.Ok false,
     Some [ "Error on git command " +:+ dquote +:+ dquote +:+ "/usr/bin/git" +:+ dquote
            +:+ " check-ignore " +:+ dquote +:+ "/work/a/index.js" +:+ dquote +:+ dquote
            +:+ ": Error: Command failed";
            "Error requesting ignored status, consider the 'file:///work/a/index.js' file as not ignored" ]).
Proof. vm_compute. reflexivity. Qed.

Example getRemoteProjectsItems_equal_labels :
  map description
    (fst (getRemoteProjectsItems compareLengths
            {| languageClient :=
                 {| getRemoteProjectsForConnection := λ connectionId,
                      Js.Ok [("key-1", "Alpha"); ("key-2", "Beta"); ("key-3", "Alpha")] |};
               workspaceState := ∅ |}
            "my-connection" folderA SonarQube None twoFolders))
  = [Some "key-2"; Some "key-1"; Some "key-3"].
Proof. vm_compute. reflexivity. Qed.

Example getRemoteProjectsItems_bind_manually :
  let result :=
    getRemoteProjectsItems compareLengths
      {| languageClient :=
           {| getRemoteProjectsForConnection := λ connectionId, Js.Ok [] |};
         workspaceState := ∅ |}
      "my-connection" folderA SonarQube (Some "Bind Manually") twoFolders in
  fst result = []
  ∧ shown (snd result)
    = [ ShowWarningMessage "No remote projects to display." ["Bind Manually"];
        ExecuteCommand "workbench.action.openFolderSettingsFile" ]
  ∧ workspaceFolderValue (settings (snd result)) !! "file:///work/a"
    = Some {| projectKey := Some ""; serverId := None; connectionId := Some "" |}
  ∧ isBound folderA (snd result) = false.
Proof. vm_compute. split_and!; reflexivity. Qed.

Example boundToTwoConnections_bindings :
  isBound folderA boundToTwoConnections = true
  ∧ isBound folderB boundToTwoConnections = true
  ∧ isBound folderA (deleteBindingsForConnection myConnection boundToTwoConnections)
    = false
  ∧ isBound folderB (deleteBindingsForConnection myConnection boundToTwoConnections)
    = true.
Proof. vm_compute. split_and!; reflexivity. Qed.

Example logWithPrefix_example :
  logWithPrefix true
    (String LF "one" +:+ String CR (String LF "two") +:+ String LF (String CR "three")
     +:+ String CR "")
    "[client]" (Some ["earlier"])
  = Some ["earlier"; "[client] one"; "[client] two"; "[client] three"].
Proof. vm_compute. reflexivity. Qed.
